(** * Motor-vehicle-collision dashboard: the loader, the queries and the
      aggregations of [main.py], embedded over a small model of the pandas
      and numpy operations the script calls.

    The script is a flat sequence of pandas expressions.  Each expression is
    translated operation by operation: [read_csv], [dropna], [rename],
    [query], column selection, [sort_values], row slicing, the [.dt]
    accessor, boolean-mask indexing, [np.histogram], [stack],
    [value_counts] and [corr].

    Modelling conventions.
    - A cell is missing ([NaN], which also stands for [NaT] and [None]), a
      number, a string or a timestamp.  float64 numbers are modelled by exact
      rationals; a timestamp is the datetime64[ns] integer (nanoseconds since
      the epoch).
    - A frame is a header and an ordered list of rows; every row carries its
      index label, which selection and sorting preserve.
    - An operation that raises in Python returns [inl] of the exception. *)

From Stdlib Require Import List String Ascii ZArith QArith Bool Arith Lia.
From Stdlib Require Import Permutation Sorted.
From Stdlib Require Import Reals Qreals Lra.
Import ListNotations.

Local Open Scope string_scope.
Local Open Scope list_scope.

(** ** Exceptions and the error monad *)

Inductive exn : Type :=
| KeyError (key : string)
| UndefinedVariableError (name : string)
| TypeError
| AttributeError
| ValueError.

Definition py (A : Type) : Type := (exn + A)%type.

Definition ret {A : Type} (a : A) : py A := inr a.
Definition raise {A : Type} (e : exn) : py A := inl e.
Definition bind {A B : Type} (m : py A) (k : A -> py B) : py B :=
  match m with
  | inl e => inl e
  | inr a => k a
  end.

Notation "x <- m ;; k" := (bind m (fun x => k))
  (at level 61, m at next level, right associativity).

Fixpoint mapM {A B : Type} (f : A -> py B) (l : list A) : py (list B) :=
  match l with
  | [] => ret []
  | a :: l' => b <- f a ;; bs <- mapM f l' ;; ret (b :: bs)
  end.

(** ** Cells, rows and frames *)

Inductive cell : Type :=
| NaN
| Num (x : Q)
| Str (s : string)
| Stamp (ns : Z).

Definition isna (c : cell) : bool :=
  match c with NaN => true | _ => false end.

Definition notna (c : cell) : bool := negb (isna c).

Definition is_numeric (c : cell) : bool :=
  match c with NaN | Num _ => true | _ => false end.

Definition is_datetimelike (c : cell) : bool :=
  match c with NaN | Stamp _ => true | _ => false end.

(** A row is its index label and its cells, aligned with the header. *)
Definition row : Type := (nat * list cell)%type.

Record DataFrame : Type := mkDF {
  columns : list string;
  rows : list row
}.

Definition label (r : row) : nat := fst r.
Definition index (df : DataFrame) : list nat := map label (rows df).

(** The cell of a row at a column position; a position past the end of the
    row reads as missing. *)
Definition cell_at (p : nat) (r : row) : cell := nth p (snd r) NaN.

Fixpoint find_col (name : string) (cols : list string) : option nat :=
  match cols with
  | [] => None
  | c :: cs =>
      if String.eqb c name then Some 0%nat
      else option_map S (find_col name cs)
  end.

(** [df[name]]: the position of the column, or KeyError. *)
Definition col_loc (name : string) (df : DataFrame) : py nat :=
  match find_col name (columns df) with
  | Some p => ret p
  | None => raise (KeyError name)
  end.

(** Rows kept by a predicate, header unchanged. *)
Definition select_rows (keep : row -> bool) (df : DataFrame) : DataFrame :=
  mkDF (columns df) (filter keep (rows df)).

(** [df.dropna(subset=names)] *)
Definition dropna_subset (names : list string) (df : DataFrame)
  : py DataFrame :=
  ps <- mapM (fun n => col_loc n df) names ;;
  ret (select_rows (fun r => forallb (fun p => notna (cell_at p r)) ps) df).

(** [df.dropna(how="any")]: a row goes as soon as one of its cells is
    missing. *)
Definition dropna_any (df : DataFrame) : DataFrame :=
  select_rows
    (fun r => forallb (fun p => notna (cell_at p r))
                      (seq 0 (List.length (columns df))))
    df.

(** [df.rename(f, axis='columns')] *)
Definition rename_axis (f : string -> string) (df : DataFrame) : DataFrame :=
  mkDF (map f (columns df)) (rows df).

(** [df.rename(columns={old: new})] *)
Definition rename_columns (old new : string) (df : DataFrame) : DataFrame :=
  rename_axis (fun c => if String.eqb c old then new else c) df.

(** [df[[n1, n2, ...]]] *)
Definition getitems (names : list string) (df : DataFrame) : py DataFrame :=
  ps <- mapM (fun n => col_loc n df) names ;;
  ret (mkDF names
         (map (fun r => (label r, map (fun p => cell_at p r) ps)) (rows df))).

(** [df[:n]] *)
Definition head (n : nat) (df : DataFrame) : DataFrame :=
  mkDF (columns df) (firstn n (rows df)).

(** ** [str.lower], on ASCII letters *)

Definition lower_ascii (c : ascii) : ascii :=
  let n := nat_of_ascii c in
  if ((65 <=? n) && (n <=? 90))%nat then ascii_of_nat (n + 32) else c.

Fixpoint lower (s : string) : string :=
  match s with
  | EmptyString => EmptyString
  | String c s' => String (lower_ascii c) (lower s')
  end.


(** ** The loader (main.py, lines 8-18) *)

Definition DATA_URL : string := "dataset.csv".
Definition DATE_TIME : string := "date_time".

Section Loader.

(** The date parser [read_csv] applies to the date cell and the time cell
    of one row; it belongs to pandas and is left abstract. *)
Variable to_datetime : cell -> cell -> cell.

Definition is_date_col (c : string) : bool :=
  String.eqb c "crash_date" || String.eqb c "crash_time".

Definition not_date_col (c : string) : bool := negb (is_date_col c).

(** The cells of a row without those under the two merged columns. *)
Definition other_cells (cols : list string) (cells : list cell)
  : list cell :=
  map snd (filter (fun cv => not_date_col (fst cv)) (combine cols cells)).

(** [pd.read_csv(DATA_URL, parse_dates=[['crash_date', 'crash_time']])],
    from the frame [raw] that plain [read_csv] yields: the two columns
    are replaced by one leading column named after both. *)
Definition read_csv_parse_dates (raw : DataFrame) : py DataFrame :=
  match find_col "crash_date" (columns raw),
        find_col "crash_time" (columns raw) with
  | Some pd, Some pt =>
      ret (mkDF ("crash_date_crash_time"
                   :: filter not_date_col (columns raw))
             (map (fun r =>
                     (label r,
                      to_datetime (cell_at pd r) (cell_at pt r)
                        :: other_cells (columns raw) (snd r)))
                  (rows raw)))
  | _, _ => raise ValueError
  end.

Definition load_data (raw : DataFrame) : py DataFrame :=
  data <- read_csv_parse_dates raw ;;
  data <- dropna_subset ["latitude"; "longitude"] data ;;
  let data := rename_axis lower data in
  let data := rename_columns "crash_date_crash_time" DATE_TIME data in
  ret data.

End Loader.

(** ** Minimum-injury filter for the map (main.py, lines 29-30) *)

(** The comparison [cell >= k] of a numeric column with an integer: a
    missing value compares false. *)
Definition cell_ge (k : Z) (c : cell) : bool :=
  match c with
  | Num x => Qle_bool (inject_Z k) x
  | _ => false
  end.

(** [df.query("name >= @k")]: the name must be a column, and the column
    numeric for the comparison with an integer to be defined. *)
Definition query_ge (name : string) (k : Z) (df : DataFrame) : py DataFrame :=
  match find_col name (columns df) with
  | None => raise (UndefinedVariableError name)
  | Some p =>
      if forallb (fun r => is_numeric (cell_at p r)) (rows df)
      then ret (select_rows (fun r => cell_ge k (cell_at p r)) df)
      else raise TypeError
  end.

(** The frame handed to [st.map] for the slider value [injured_people]. *)
Definition injured_map (data : DataFrame) (injured_people : Z)
  : py DataFrame :=
  q <- query_ge "injured_persons" injured_people data ;;
  m <- getitems ["latitude"; "longitude"] q ;;
  ret (dropna_any m).

(** ** Hour filter (main.py, lines 34-35) *)

Definition NS_PER_MINUTE : Z := 60000000000.
Definition NS_PER_HOUR : Z := 3600000000000.

(** Hour of day and minute of hour of a datetime64[ns] value. *)
Definition hour_of (ns : Z) : Z := ((ns / NS_PER_HOUR) mod 24)%Z.
Definition minute_of (ns : Z) : Z := ((ns / NS_PER_MINUTE) mod 60)%Z.

(** [df[name]] as a series of cells. *)
Definition series (name : string) (df : DataFrame) : py (list cell) :=
  p <- col_loc name df ;;
  ret (map (cell_at p) (rows df)).

(** [s.dt.hour] and [s.dt.minute]: the accessor exists on datetime series
    only; a missing timestamp gives a missing field. *)
Definition dt_field (field : Z -> Z) (s : list cell) : py (list cell) :=
  if forallb is_datetimelike s
  then ret (map (fun c => match c with
                          | Stamp ns => Num (inject_Z (field ns))
                          | _ => NaN
                          end) s)
  else raise AttributeError.

(** [cell == k] for an integer [k]: false on a missing value. *)
Definition cell_eq_scalar (k : Z) (c : cell) : bool :=
  match c with
  | Num x => Qeq_bool x (inject_Z k)
  | _ => false
  end.

(** [df[mask]] for a boolean series aligned with the rows. *)
Definition mask_rows (mask : list bool) (df : DataFrame) : DataFrame :=
  mkDF (columns df)
       (map snd (filter (fun br => fst br) (combine mask (rows df)))).

Definition data_by_hour (data : DataFrame) (hour : Z) : py DataFrame :=
  s <- series DATE_TIME data ;;
  h <- dt_field hour_of s ;;
  ret (mask_rows (map (cell_eq_scalar hour) h) data).

(** ** Minute histogram (main.py, lines 64-66) *)

(** Edge [j] of [bins] equal-width bins over [lo, hi]. *)
Definition bin_edge (bins : nat) (lo hi : Q) (j : nat) : Q :=
  lo + inject_Z (Z.of_nat j) * (hi - lo) / inject_Z (Z.of_nat bins).

(** Bin [j] is half-open, except the last one, which includes [hi]. *)
Definition in_bin (bins : nat) (lo hi : Q) (j : nat) (c : cell) : bool :=
  match c with
  | Num x =>
      Qle_bool (bin_edge bins lo hi j) x
      && (if (S j =? bins)%nat
          then Qle_bool x (bin_edge bins lo hi (S j))
          else negb (Qle_bool (bin_edge bins lo hi (S j)) x))
  | _ => false
  end.

(** [np.histogram(a, bins=bins, range=(lo, hi))[0]] *)
Definition np_histogram (a : list cell) (bins : nat) (lo hi : Q)
  : list nat :=
  map (fun j => List.length (filter (in_bin bins lo hi j) a)) (seq 0 bins).

Definition hist (filtered : DataFrame) : py (list nat) :=
  s <- series DATE_TIME filtered ;;
  m <- dt_field minute_of s ;;
  ret (np_histogram m 60 0 60).

(** ** Descending sort (main.py, lines 74-82) *)

(** Order of the keys after [sort_values(ascending=False)]: numbers do not
    increase, missing keys come last. *)
Definition desc_nan_last (a b : cell) : Prop :=
  match a, b with
  | Num x, Num y => (y <= x)%Q
  | _, NaN => True
  | _, _ => False
  end.

(** What [sort_values] guarantees of the order it returns.  The script
    passes no [kind], so pandas sorts with its default, ['quicksort'], which
    its documentation lists as not stable (only ['mergesort'] and ['stable']
    are): which of two equal keys comes first depends on the numpy build
    and on the length of the column.  The model keeps what holds of every
    such sort: the indexer [nargsort] computes lists every row position
    once, and the keys read along it are in order.  Only numeric keys are
    ordered, the script sorts no other. *)
Definition is_nargsort_desc (keys : list cell) (indexer : list nat) : Prop :=
  Permutation indexer (seq 0 (List.length keys))
  /\ StronglySorted desc_nan_last (map (fun i => nth i keys NaN) indexer).

(** [df.take(indexer)] *)
Definition take (indexer : list nat) (df : DataFrame) : DataFrame :=
  mkDF (columns df) (map (fun i => nth i (rows df) (0%nat, [])) indexer).

(** [df.sort_values(by=name, ascending=False)], as a relation between the
    frame and the outcomes the library contract allows. *)
Inductive sort_values_desc (name : string) (df : DataFrame)
  : py DataFrame -> Prop :=
| sort_values_missing :
    find_col name (columns df) = None ->
    sort_values_desc name df (raise (KeyError name))
| sort_values_take (p : nat) (indexer : list nat) :
    find_col name (columns df) = Some p ->
    is_nargsort_desc (map (cell_at p) (rows df)) indexer ->
    sort_values_desc name df (ret (take indexer df)).

(** ** Most dangerous streets (main.py, lines 72-82) *)

(** One branch of the selection:
    [data.query("col >= 1")[["on_street_name", col]]
       .sort_values(by=col, ascending=False).dropna(how="any")[:n]],
    first up to the sort, then whole. *)
Definition street_counts (col : string) (data : DataFrame) : py DataFrame :=
  q <- query_ge col 1 data ;;
  getitems ["on_street_name"; col] q.

Definition top_streets (n : nat) (col : string) (data : DataFrame)
  (out : py DataFrame) : Prop :=
  match street_counts col data with
  | inl e => out = inl e
  | inr sel =>
      exists sorted,
        sort_values_desc col sel sorted
        /\ out = (s <- sorted ;; ret (head n (dropna_any s)))
  end.

(** The [if]/[elif]/[else] on the value of the select box. *)
Definition select_view (select : string) (data : DataFrame)
  (out : py DataFrame) : Prop :=
  if String.eqb select "Pedestrians" then
    top_streets 5 "number_of_pedestrians_injured" data out
  else if String.eqb select "Cyclists" then
    top_streets 5 "number_of_cyclist_injured" data out
  else
    top_streets 5 "number_of_motorist_injured" data out.

(** ** Stacked value counts (main.py, lines 127-128 and 143-144) *)

(** Equality of two values as [value_counts] groups them. *)
Definition cell_eqb (a b : cell) : bool :=
  match a, b with
  | NaN, NaN => true
  | Num x, Num y => Qeq_bool x y
  | Str s, Str t => String.eqb s t
  | Stamp m, Stamp n => Z.eqb m n
  | _, _ => false
  end.

(** The entry [stack] keeps for a cell: none when the cell is missing. *)
Definition present {K : Type} (key : K) (v : cell) : list (K * cell) :=
  if isna v then [] else [(key, v)].

(** [df.stack()]: one entry per non-missing cell, keyed by row label and
    column name, rows in order and columns in order within a row. *)
Definition stack (df : DataFrame) : list ((nat * string) * cell) :=
  flat_map
    (fun r =>
       flat_map (fun pc => present (label r, snd pc) (cell_at (fst pc) r))
                (combine (seq 0 (List.length (columns df))) (columns df)))
    (rows df).

(** One more occurrence of [v] in a table of counts kept in order of first
    appearance. *)
Fixpoint tally (v : cell) (t : list (cell * nat)) : list (cell * nat) :=
  match t with
  | [] => [(v, 1%nat)]
  | (w, n) :: t' =>
      if cell_eqb w v then (w, S n) :: t' else (w, n) :: tally v t'
  end.

Definition count_table (vals : list cell) : list (cell * nat) :=
  fold_left (fun t v => tally v t) vals [].

(** [s.value_counts()]: missing values are not counted; the table is sorted
    by count, descending, under the same contract as [sort_values]. *)
Definition value_counts (s : list cell) (out : list (cell * nat)) : Prop :=
  let t := count_table (filter notna s) in
  exists indexer,
    is_nargsort_desc (map (fun e => Num (inject_Z (Z.of_nat (snd e)))) t)
                     indexer
    /\ out = map (fun i => nth i t (NaN, 0%nat)) indexer.

(** [data[cols].stack().value_counts().head(n)] *)
Definition top_values (n : nat) (cols : list string) (data : DataFrame)
  (out : py (list (cell * nat))) : Prop :=
  match getitems cols data with
  | inl e => out = inl e
  | inr sel =>
      exists vc,
        value_counts (map snd (stack sel)) vc /\ out = ret (firstn n vc)
  end.

Definition factor_columns : list string :=
  ["contributing_factor_vehicle_1"; "contributing_factor_vehicle_2"].

Definition factors (data : DataFrame) (out : py (list (cell * nat))) : Prop :=
  top_values 20 factor_columns data out.

Definition vehicle_type_columns : list string :=
  ["vehicle_type_code_1"; "vehicle_type_code_2"].

Definition vehicle_types (data : DataFrame) (out : py (list (cell * nat)))
  : Prop :=
  top_values 10 vehicle_type_columns data out.

(** ** Correlation matrix (main.py, lines 135-137) *)

(** float64 arithmetic is idealised by exact real arithmetic. *)















(** ** Vocabulary of the statements *)

(** The cell of a row under a column name; missing when the frame has no
    such column. *)
Definition value (name : string) (df : DataFrame) (r : row) : cell :=
  match find_col name (columns df) with
  | Some p => cell_at p r
  | None => NaN
  end.

(** [sublist k l]: [k] is [l] with some elements left out, order kept. *)
Inductive sublist {A : Type} : list A -> list A -> Prop :=
| sublist_nil : sublist [] []
| sublist_skip (x : A) (k l : list A) : sublist k l -> sublist k (x :: l)
| sublist_keep (x : A) (k l : list A) :
    sublist k l -> sublist (x :: k) (x :: l).

(** The rows of the bucket of an hour; none when the filter raises. *)
Definition hour_bucket (data : DataFrame) (hour : Z) : list row :=
  match data_by_hour data hour with
  | inr b => rows b
  | inl _ => []
  end.

(** The column exists and holds timestamps, missing ones allowed: what the
    [.dt] accessor asks for. *)
Definition datetime_column (name : string) (df : DataFrame) : Prop :=
  exists s, series name df = inr s /\ forallb is_datetimelike s = true.

Definition in_hour (hour : Z) (c : cell) : bool :=
  match c with
  | Stamp ns => Z.eqb (hour_of ns) hour
  | _ => false
  end.

Definition in_minute (minute : Z) (c : cell) : bool :=
  match c with
  | Stamp ns => Z.eqb (minute_of ns) minute
  | _ => false
  end.


(** [sum(l)] *)
Definition total (l : list nat) : nat := fold_right Nat.add 0%nat l.


(** Both coordinates of a row are present. *)
Definition has_coordinates (df : DataFrame) (r : row) : bool :=
  notna (value "latitude" df r) && notna (value "longitude" df r).

(** The name a column of the file ends with: lower-cased, and the merged
    column under its canonical name. *)
Definition canonical (c : string) : string :=
  if String.eqb (lower c) "crash_date_crash_time" then DATE_TIME
  else lower c.

(** The three injury columns the select box chooses among. *)
Definition injury_columns : list string :=
  ["number_of_pedestrians_injured"; "number_of_cyclist_injured";
   "number_of_motorist_injured"].




(** How many values of a list equal [w]. *)
Definition count_in (w : cell) (vals : list cell) : nat :=
  List.length (filter (cell_eqb w) vals).

(** How many rows of the table hold [w] in a column. *)
Definition occurrences (w : cell) (col : string) (data : DataFrame) : nat :=
  List.length (filter (fun r => cell_eqb w (value col data r)) (rows data)).

(** A table of counts is right for a list of values: each entry counts the
    values equal to its key, no two keys are equal, every value has its
    entry. *)
Definition counts_of (vals : list cell) (t : list (cell * nat)) : Prop :=
  (forall w k, In (w, k) t -> In w vals /\ k = count_in w vals)
  /\ ForallOrdPairs (fun a b => cell_eqb (fst a) (fst b) = false) t
  /\ (forall v, In v vals ->
        exists w k, In (w, k) t /\ cell_eqb w v = true).

(** The two columns are stacked cell by cell, and the counts are those of
    the cells: the stacked stream holds, row after row, the value of the
    first column if present, then that of the second if present; every
    count is the number of cells of both columns that hold the value; every
    present cell is counted. *)
Definition cell_wise_counts (n : nat) (c1 c2 : string) (data : DataFrame)
  (out : list (cell * nat)) : Prop :=
  exists sel vc,
    getitems [c1; c2] data = inr sel
    /\ stack sel
       = flat_map (fun r => present (label r, c1) (value c1 data r)
                            ++ present (label r, c2) (value c2 data r))
                  (rows data)
    /\ value_counts (map snd (stack sel)) vc
    /\ out = firstn n vc
    /\ (forall w k, In (w, k) vc ->
          notna w = true
          /\ k = (occurrences w c1 data + occurrences w c2 data)%nat)
    /\ (forall r v, In r (rows data) ->
          v = value c1 data r \/ v = value c2 data r ->
          notna v = true ->
          exists w k, In (w, k) vc /\ cell_eqb w v = true).

(** The cells of a column of the table. *)
Definition column_cells (name : string) (data : DataFrame) : list cell :=
  map (value name data) (rows data).


(** ** A reference indexer *)

(** [a] goes strictly before [b] in the descending order: a larger number
    first, any number before a missing key. *)
Definition key_before (a b : cell) : bool :=
  match a, b with
  | Num x, Num y => negb (Qle_bool x y)
  | Num _, NaN => true
  | _, _ => false
  end.

(** Position [i] put in an ordered indexer, after every position whose key
    is not smaller. *)
Fixpoint insert_desc (keys : list cell) (i : nat) (sorted : list nat)
  : list nat :=
  match sorted with
  | [] => [i]
  | j :: rest =>
      if key_before (nth i keys NaN) (nth j keys NaN)
      then i :: j :: rest
      else j :: insert_desc keys i rest
  end.

(** The stable descending indexer: the positions inserted in table order.
    It is one of the indexers [is_nargsort_desc] allows. *)
Definition stable_nargsort_desc (keys : list cell) : list nat :=
  fold_left (fun acc i => insert_desc keys i acc)
            (seq 0 (List.length keys)) [].

(** ** Sample tables *)

(** A timestamp on 2020-01-01, as datetime64[ns]. *)
Definition at_time (h m : Z) : cell :=
  Stamp ((18262 * 86400 + h * 3600 + m * 60) * 1000000000)%Z.

(** Three collisions with 0, 2 and 5 injured persons, at 10:15, 10:40 and
    14:05, and a fourth whose number of injured persons is missing. *)
Definition sample_table : DataFrame :=
  mkDF ["date_time"; "latitude"; "longitude"; "injured_persons"]
       [(0%nat, [at_time 10 15; Num (4071 # 100); Num (-7400 # 100); Num 0]);
        (1%nat, [at_time 10 40; Num (4072 # 100); Num (-7399 # 100); Num 2]);
        (2%nat, [at_time 14 5; Num (4073 # 100); Num (-7398 # 100); Num 5]);
        (3%nat, [at_time 14 30; Num (4074 # 100); Num (-7397 # 100); NaN])].

Definition sample_injured_2 : DataFrame :=
  mkDF ["latitude"; "longitude"]
       [(1%nat, [Num (4072 # 100); Num (-7399 # 100)]);
        (2%nat, [Num (4073 # 100); Num (-7398 # 100)])].

Definition sample_injured_0 : DataFrame :=
  mkDF ["latitude"; "longitude"]
       [(0%nat, [Num (4071 # 100); Num (-7400 # 100)]);
        (1%nat, [Num (4072 # 100); Num (-7399 # 100)]);
        (2%nat, [Num (4073 # 100); Num (-7398 # 100)])].

(** A file of three collisions as plain [read_csv] yields it: the second
    has no time, the third no latitude. *)
Definition raw_sample : DataFrame :=
  mkDF ["crash_date"; "crash_time"; "BOROUGH"; "latitude"; "longitude";
        "INJURED_PERSONS"]
       [(0%nat, [Str "01/01/2020"; Str "10:15"; Str "BROOKLYN";
                 Num (4071 # 100); Num (-7400 # 100); Num 0]);
        (1%nat, [Str "01/01/2020"; NaN; Str "QUEENS";
                 Num (4072 # 100); Num (-7399 # 100); Num 2]);
        (2%nat, [Str "01/01/2020"; Str "14:05"; NaN;
                 NaN; Num (-7398 # 100); Num 5])].

(** A date parser for the sample: it knows the two times of the file and
    gives a missing timestamp for anything else. *)
Definition sample_to_datetime (d t : cell) : cell :=
  match d, t with
  | Str ds, Str ts =>
      if String.eqb ds "01/01/2020" then
        if String.eqb ts "10:15" then at_time 10 15
        else if String.eqb ts "14:05" then at_time 14 5
        else NaN
      else NaN
  | _, _ => NaN
  end.

Definition loaded_sample : DataFrame :=
  mkDF ["date_time"; "borough"; "latitude"; "longitude"; "injured_persons"]
       [(0%nat, [at_time 10 15; Str "BROOKLYN";
                 Num (4071 # 100); Num (-7400 # 100); Num 0]);
        (1%nat, [NaN; Str "QUEENS";
                 Num (4072 # 100); Num (-7399 # 100); Num 2])].

(** Four collisions; the third has no street name, the fourth no count of
    cyclists. *)
Definition streets_table : DataFrame :=
  mkDF ["on_street_name"; "number_of_pedestrians_injured";
        "number_of_cyclist_injured"; "number_of_motorist_injured"]
       [(0%nat, [Str "BROADWAY"; Num 2; Num 0; Num 1]);
        (1%nat, [Str "5 AVENUE"; Num 2; Num 1; Num 3]);
        (2%nat, [NaN; Num 3; Num 0; Num 0]);
        (3%nat, [Str "CANAL STREET"; Num 0; NaN; Num 3])].

(** Its pedestrian ranking with the two tied rows in table order, and with
    the two tied rows the other way round. *)
Definition pedestrians_in_order : DataFrame :=
  mkDF ["on_street_name"; "number_of_pedestrians_injured"]
       [(0%nat, [Str "BROADWAY"; Num 2]);
        (1%nat, [Str "5 AVENUE"; Num 2])].


Definition motorists_ranking : DataFrame :=
  mkDF ["on_street_name"; "number_of_motorist_injured"]
       [(1%nat, [Str "5 AVENUE"; Num 3]);
        (3%nat, [Str "CANAL STREET"; Num 3]);
        (0%nat, [Str "BROADWAY"; Num 1])].

(** Five collisions: the first and the fourth name one factor only, the
    third names none. *)
Definition factors_table : DataFrame :=
  mkDF ["contributing_factor_vehicle_1"; "contributing_factor_vehicle_2"]
       [(0%nat, [Str "Unspecified"; NaN]);
        (1%nat, [Str "Driver Inattention"; Str "Unspecified"]);
        (2%nat, [NaN; NaN]);
        (3%nat, [NaN; Str "Driver Inattention"]);
        (4%nat, [Str "Unspecified"; Str "Unspecified"])].


(** ** More vocabulary *)

(** The column holds numbers only, missing ones allowed. *)
Definition numeric_column (name : string) (data : DataFrame) : bool :=
  forallb is_numeric (column_cells name data).

(** ** The map view state (main.py, line 39) *)




(** ** The bar chart of the minutes (main.py, line 66) *)

(** [range(n)] and an array of counts, as columns of numbers. *)
Definition num_of_nat (n : nat) : cell := Num (inject_Z (Z.of_nat n)).
Definition range (n : nat) : list cell := map num_of_nat (seq 0 n).

(** [pd.DataFrame({name: column, ...})]: the columns must have one length;
    the rows get the labels 0, 1, ... *)
Definition frame_of_columns (cols : list (string * list cell))
  : py DataFrame :=
  match cols with
  | [] => ret (mkDF [] [])
  | (_, c) :: rest =>
      if forallb (fun nc => (List.length (snd nc) =? List.length c)%nat)
                 rest
      then ret (mkDF (map fst cols)
                  (map (fun i =>
                          (i, map (fun nc => nth i (snd nc) NaN) cols))
                       (seq 0 (List.length c))))
      else raise ValueError
  end.

Definition chart_data (filtered : DataFrame) : py DataFrame :=
  h <- hist filtered ;;
  frame_of_columns [("minute", range 60); ("crashes", map num_of_nat h)].

(** ** Grouping (main.py, lines 87 and 117) *)

Section GroupBy.

Context {K V : Type}.

(** The order of the keys. *)
Variable cmp : K -> K -> comparison.

(** A value joins the group of its key, at the end; a new key gets its
    group at its place in the order of the keys. *)
Fixpoint group_insert (k : K) (v : V) (g : list (K * list V))
  : list (K * list V) :=
  match g with
  | [] => [(k, [v])]
  | (k', vs) :: g' =>
      match cmp k k' with
      | Eq => (k', vs ++ [v]) :: g'
      | Lt => (k, [v]) :: g
      | Gt => (k', vs) :: group_insert k v g'
      end
  end.

(** [groupby(keys)]: the groups, in the order of their keys; within a
    group, the values in the order of the rows. *)
Definition group_rows (kvs : list (K * V)) : list (K * list V) :=
  fold_left (fun g kv => group_insert (fst kv) (snd kv) g) kvs [].

(** The values under a key, in the order of the rows. *)
Definition members (k : K) (kvs : list (K * V)) : list V :=
  map snd (filter (fun kv => match cmp (fst kv) k with
                             | Eq => true
                             | _ => false
                             end) kvs).

(** The groups come in the strict order of their keys. *)
Definition key_lt (a b : K * list V) : Prop := cmp (fst a) (fst b) = Lt.

(** What the groups of a list of rows are: sorted by key, each key a key
    of the rows, each group the values of the rows under its key, in order,
    and not empty; every row is in a group. *)
Definition groups_of (kvs : list (K * V)) (g : list (K * list V)) : Prop :=
  StronglySorted key_lt g
  /\ (forall k vs, In (k, vs) g ->
        vs = members k kvs /\ vs <> [] /\ exists v, In (k, v) kvs)
  /\ (forall kv, In kv kvs ->
        exists k vs, In (k, vs) g /\ cmp (fst kv) k = Eq).

End GroupBy.

(** The float64 view of a numeric series: a number or missing. *)
Definition float_values (s : list cell) : list (option Q) :=
  map (fun c => match c with Num x => Some x | _ => None end) s.

(** The keys that are present, each paired with a value. *)
Definition keyed {K V : Type} (kvs : list (option K * V)) : list (K * V) :=
  flat_map (fun kv => match fst kv with
                      | Some k => [(k, snd kv)]
                      | None => []
                      end) kvs.

(** [groupby(keys).size()]: rows with a missing key are in no group; the
    groups come sorted by key. *)
Definition groupby_size (keys : list (option Q)) : list (Q * nat) :=
  map (fun g => (fst g, List.length (snd g)))
      (group_rows Qcompare (keyed (map (fun k => (k, tt)) keys))).

(** [data.groupby(data[DATE_TIME].dt.hour).size()] *)
Definition hourly_collisions (data : DataFrame) : py (list (Q * nat)) :=
  s <- series DATE_TIME data ;;
  h <- dt_field hour_of s ;;
  ret (groupby_size (float_values h)).

(** ** Severity by site (main.py, line 117) *)



Section Severity.

(** What [groupby(...).agg(...)] does when one of the three columns holds
    a string or a timestamp; it belongs to pandas and is left abstract. *)
Variable agg_objects : DataFrame -> py DataFrame.


End Severity.






(** ** Collisions by borough (main.py, line 103) *)

(** [data['borough'].value_counts()] *)
Definition borough_collisions (data : DataFrame)
  (out : py (list (cell * nat))) : Prop :=
  match series "borough" data with
  | inl e => out = inl e
  | inr s => exists vc, value_counts s vc /\ out = ret vc
  end.

(** A table with a borough for three collisions out of four. *)
Definition borough_table : DataFrame :=
  mkDF ["borough"]
       [(0%nat, [Str "QUEENS"]);
        (1%nat, [Str "BROOKLYN"]);
        (2%nat, [NaN]);
        (3%nat, [Str "BROOKLYN"])].

(** ** The points of the hexagon layer (main.py, line 51) *)

(** [data_by_hour[[DATE_TIME, 'latitude', 'longitude']]] *)
Definition layer_data (data_by_hour : DataFrame) : py DataFrame :=
  getitems [DATE_TIME; "latitude"; "longitude"] data_by_hour.

(** ** The hour window of the headings (main.py, lines 36 and 63) *)

(** [(hour, (hour + 1) % 24)] *)
Definition window_label (hour : Z) : Z * Z := (hour, ((hour + 1) mod 24)%Z).

(** * Properties *)

(** ** General lemmas *)

Lemma bind_inr {A B : Type} (m : py A) (k : A -> py B) (b : B) :
  bind m k = inr b -> exists a, m = inr a /\ k a = inr b.
Proof.
  destruct m as [e | a]; simpl; intros H.
  - discriminate.
  - exists a. split; [reflexivity | exact H].
Qed.

Ltac inv_bind H :=
  let a := fresh "a" in
  let Ha := fresh "Ha" in
  apply bind_inr in H; destruct H as (a & Ha & H).

#[local] Hint Constructors sublist : core.

Lemma sublist_nil_l {A : Type} (l : list A) : sublist [] l.
Proof. induction l; auto. Qed.

Lemma sublist_filter {A : Type} (f : A -> bool) (l : list A) :
  sublist (filter f l) l.
Proof.
  induction l as [| x l IH]; simpl; [constructor |].
  destruct (f x); auto.
Qed.

Lemma sublist_trans {A : Type} (k l m : list A) :
  sublist k l -> sublist l m -> sublist k m.
Proof.
  intros Hkl Hlm. revert k Hkl.
  induction Hlm as [| x l m Hlm IH | x l m Hlm IH]; intros k Hkl.
  - exact Hkl.
  - constructor. apply IH. exact Hkl.
  - inversion Hkl as [| y k' l' Hk' | y k' l' Hk']; subst.
    + constructor. apply IH. assumption.
    + apply sublist_keep. apply IH. assumption.
Qed.

Lemma sublist_firstn {A : Type} (n : nat) (l : list A) :
  sublist (firstn n l) l.
Proof.
  revert n. induction l as [| x l IH]; intros [| n]; simpl; auto.
  apply sublist_nil_l.
Qed.

Lemma sublist_In {A : Type} (k l : list A) (x : A) :
  sublist k l -> In x k -> In x l.
Proof.
  induction 1 as [| y k l H IH | y k l H IH]; simpl; intros Hx; auto.
  destruct Hx; auto.
Qed.

Lemma sublist_Forall {A : Type} (P : A -> Prop) (k l : list A) :
  sublist k l -> Forall P l -> Forall P k.
Proof.
  intros Hs Hl. rewrite Forall_forall in *.
  intros x Hx. apply Hl. eapply sublist_In; eauto.
Qed.

(** A sublist of the images under [f] is the image of a sublist. *)
Lemma sublist_map_inv {A B : Type} (f : A -> B) (l : list A) (k : list B) :
  sublist k (map f l) -> exists l', sublist l' l /\ k = map f l'.
Proof.
  revert k. induction l as [| x l IH]; simpl; intros k Hk.
  - inversion Hk; subst. exists []. auto.
  - inversion Hk as [| y k' l' Hk' | y k' l' Hk']; subst.
    + destruct (IH _ Hk') as (l0 & Hl0 & ->). exists l0. auto.
    + destruct (IH _ Hk') as (l0 & Hl0 & ->). exists (x :: l0). auto.
Qed.

Lemma NoDup_map_inj_on {A B : Type} (f : A -> B) (l : list A) (a b : A) :
  NoDup (map f l) -> In a l -> In b l -> f a = f b -> a = b.
Proof.
  induction l as [| x l IH]; simpl; intros Hnd Ha Hb Hab; [contradiction |].
  inversion Hnd as [| y l' Hnotin Hnd']; subst.
  destruct Ha as [-> | Ha], Hb as [-> | Hb]; auto.
  - exfalso. apply Hnotin. rewrite Hab. apply in_map. exact Hb.
  - exfalso. apply Hnotin. rewrite <- Hab. apply in_map. exact Ha.
Qed.

Lemma find_col_In (name : string) (cols : list string) :
  In name cols -> exists p, find_col name cols = Some p.
Proof.
  induction cols as [| c cs IH]; simpl; intros H; [contradiction |].
  destruct (String.eqb_spec c name) as [E | E]; [eauto |].
  destruct H as [H | H]; [contradiction |].
  destruct (IH H) as (p & ->). simpl. eauto.
Qed.

(** ** The minimum-injury filter *)

(** What [injured_map] returns: the two coordinates of a sublist of the
    table, each row of which has a number of injured persons that reaches
    the threshold and both coordinates present. *)
Lemma injured_map_rows (data : DataFrame) (t : Z) (out : DataFrame) :
  injured_map data t = inr out ->
  columns out = ["latitude"; "longitude"]
  /\ exists kept,
      sublist kept (rows data)
      /\ Forall (fun r => exists x,
                     value "injured_persons" data r = Num x
                     /\ (inject_Z t <= x)%Q) kept
      /\ rows out
         = map (fun r => (label r, [value "latitude" data r;
                                    value "longitude" data r])) kept.
Proof.
  unfold injured_map, query_ge, value. intros H.
  inv_bind H. inv_bind H. injection H as <-.
  destruct (find_col "injured_persons" (columns data)) as [p |] eqn:Hp;
    [| discriminate].
  destruct (forallb _ (rows data)) eqn:Hnum; [| discriminate].
  injection Ha as <-.
  unfold getitems in Ha0. simpl in Ha0. unfold col_loc in Ha0. simpl in Ha0.
  destruct (find_col "latitude" (columns data)) as [plat |]; [| discriminate].
  destruct (find_col "longitude" (columns data)) as [plon |];
    [| discriminate].
  simpl in Ha0. injection Ha0 as <-.
  split; [reflexivity |].
  unfold dropna_any, select_rows. simpl.
  set (proj := fun r : row => (label r, [cell_at plat r; cell_at plon r])).
  set (q := filter (fun r => cell_ge t (cell_at p r)) (rows data)).
  destruct (sublist_map_inv proj q
              (filter (fun r => forallb (fun p0 => notna (cell_at p0 r))
                                        [0%nat; 1%nat]) (map proj q)))
    as (kept & Hkept & Heq).
  { apply sublist_filter. }
  exists kept. split; [| split].
  - eapply sublist_trans; [exact Hkept | apply sublist_filter].
  - apply sublist_Forall with (l := q); [exact Hkept |].
    apply Forall_forall. intros r Hr. apply filter_In in Hr as [_ Hr].
    unfold cell_ge in Hr. destruct (cell_at p r) as [| x | |]; try discriminate.
    exists x. split; [reflexivity |]. apply Qle_bool_iff. exact Hr.
  - exact Heq.
Qed.

(** C1: for every table and every threshold t in [0,19], the frame that
    [injured_map] returns holds the coordinates of rows of the table, each
    with a number of injured persons of at least t, and these rows are a
    sublist of the table: a subset of its rows, in the table's order. *)
Theorem C1_injured_map_filter (data : DataFrame) (t : Z) (out : DataFrame) :
  (0 <= t <= 19)%Z ->
  injured_map data t = inr out ->
  exists kept,
    sublist kept (rows data)
    /\ Forall (fun r => exists x,
                   value "injured_persons" data r = Num x
                   /\ (inject_Z t <= x)%Q) kept
    /\ rows out
       = map (fun r => (label r, [value "latitude" data r;
                                  value "longitude" data r])) kept.
Proof.
  intros _ H. apply injured_map_rows in H as (_ & kept & H). exists kept.
  exact H.
Qed.

Lemma C1_injured_map_filter_witness :
  (0 <= 2 <= 19)%Z
  /\ injured_map sample_table 2 = inr sample_injured_2
  /\ exists kept,
      sublist kept (rows sample_table)
      /\ Forall (fun r => exists x,
                     value "injured_persons" sample_table r = Num x
                     /\ (inject_Z 2 <= x)%Q) kept
      /\ rows sample_injured_2
         = map (fun r => (label r, [value "latitude" sample_table r;
                                    value "longitude" sample_table r])) kept.
Proof.
  split; [lia |]. split; [reflexivity |].
  apply (C1_injured_map_filter sample_table 2 sample_injured_2);
    [lia | reflexivity].
Defined.

(** The filter runs on any table that has the three columns, the counts
    numeric; missing counts do not make it raise. *)
Lemma injured_map_defined (data : DataFrame) (t : Z) (p : nat) :
  find_col "injured_persons" (columns data) = Some p ->
  forallb (fun r => is_numeric (cell_at p r)) (rows data) = true ->
  In "latitude" (columns data) -> In "longitude" (columns data) ->
  exists out, injured_map data t = inr out.
Proof.
  intros Hp Hnum Hlat Hlon.
  destruct (find_col_In _ _ Hlat) as (plat & Hplat).
  destruct (find_col_In _ _ Hlon) as (plon & Hplon).
  unfold injured_map, query_ge. rewrite Hp, Hnum. simpl.
  unfold getitems, col_loc. simpl. rewrite Hplat, Hplon. simpl.
  eexists. reflexivity.
Qed.

(** C9: on a table whose column of injured persons is numeric, missing
    values allowed, [injured_map] does not raise, whatever the threshold,
    zero included, and a row whose number of injured persons is missing is
    not returned: its label is not in the index of the result.  Labels
    identify rows: the index of the table has no duplicate. *)
Theorem C9_missing_injured_filtered_out
  (data : DataFrame) (t : Z) (p : nat) (r : row) :
  find_col "injured_persons" (columns data) = Some p ->
  forallb (fun r => is_numeric (cell_at p r)) (rows data) = true ->
  In "latitude" (columns data) -> In "longitude" (columns data) ->
  NoDup (index data) ->
  In r (rows data) ->
  cell_at p r = NaN ->
  exists out,
    injured_map data t = inr out /\ ~ In (label r) (index out).
Proof.
  intros Hp Hnum Hlat Hlon Hnd Hr Hna.
  destruct (injured_map_defined data t p Hp Hnum Hlat Hlon) as (out & H).
  exists out. split; [exact H |]. intros Hin.
  apply injured_map_rows in H as (_ & kept & Hsub & Hall & Hrows).
  unfold index in Hin. rewrite Hrows, map_map in Hin. simpl in Hin.
  apply in_map_iff in Hin as (r' & Hlab & Hr').
  assert (r' = r) as ->.
  { apply (NoDup_map_inj_on label (rows data)); auto.
    eapply sublist_In; eauto. }
  rewrite Forall_forall in Hall. destruct (Hall r Hr') as (x & Hx & _).
  unfold value in Hx. rewrite Hp in Hx. congruence.
Qed.

Lemma C9_missing_injured_filtered_out_witness :
  injured_map sample_table 0 = inr sample_injured_0
  /\ exists out,
      injured_map sample_table 0 = inr out
      /\ ~ In 3%nat (index out).
Proof.
  split; [reflexivity |].
  apply (C9_missing_injured_filtered_out sample_table 0 3%nat
           (3%nat, [at_time 14 30; Num (4074 # 100); Num (-7397 # 100);
                    NaN])).
  - reflexivity.
  - reflexivity.
  - simpl. auto.
  - simpl. auto.
  - repeat constructor; simpl; intuition discriminate.
  - simpl. auto.
  - reflexivity.
Defined.

(** ** The hour filter *)

Lemma mask_of_map {A : Type} (f : A -> bool) (l : list A) :
  map snd (filter (fun br => fst br) (combine (map f l) l)) = filter f l.
Proof.
  induction l as [| x l IH]; simpl; [reflexivity |].
  destruct (f x); simpl; rewrite IH; reflexivity.
Qed.

Lemma Qeq_bool_inject_Z (a b : Z) :
  Qeq_bool (inject_Z a) (inject_Z b) = Z.eqb a b.
Proof.
  apply Bool.eq_iff_eq_true.
  rewrite Qeq_bool_iff, Z.eqb_eq, inject_Z_injective. reflexivity.
Qed.

Lemma hour_mask (hour : Z) (c : cell) :
  cell_eq_scalar hour
    (match c with Stamp ns => Num (inject_Z (hour_of ns)) | _ => NaN end)
  = in_hour hour c.
Proof.
  destruct c; simpl; try reflexivity. apply Qeq_bool_inject_Z.
Qed.

(** The bucket of an hour holds the rows stamped with that hour, in table
    order. *)
Lemma data_by_hour_rows (data : DataFrame) (hour : Z) (b : DataFrame) :
  data_by_hour data hour = inr b ->
  columns b = columns data
  /\ rows b
     = filter (fun r => in_hour hour (value DATE_TIME data r)) (rows data).
Proof.
  unfold data_by_hour, series, col_loc, value. intros H.
  destruct (find_col DATE_TIME (columns data)) as [p |]; [| discriminate].
  simpl in H. unfold dt_field in H.
  destruct (forallb is_datetimelike _); [| discriminate].
  simpl in H. injection H as <-. split; [reflexivity |].
  unfold mask_rows. simpl. rewrite !map_map, mask_of_map.
  apply filter_ext. intros r. apply hour_mask.
Qed.

Lemma data_by_hour_defined (data : DataFrame) (hour : Z) :
  datetime_column DATE_TIME data ->
  exists b, data_by_hour data hour = inr b.
Proof.
  intros (s & Hs & Hdt). unfold data_by_hour. rewrite Hs. simpl.
  unfold dt_field. rewrite Hdt. simpl. eexists. reflexivity.
Qed.

Lemma hour_bucket_rows (data : DataFrame) (hour : Z) :
  datetime_column DATE_TIME data ->
  hour_bucket data hour
  = filter (fun r => in_hour hour (value DATE_TIME data r)) (rows data).
Proof.
  intros Hdt. unfold hour_bucket.
  destruct (data_by_hour_defined data hour Hdt) as (b & Hb).
  rewrite Hb. apply data_by_hour_rows in Hb. apply Hb.
Qed.

Lemma hour_of_range (ns : Z) : (0 <= hour_of ns <= 23)%Z.
Proof.
  unfold hour_of.
  pose proof (Z.mod_pos_bound (ns / NS_PER_HOUR) 24). lia.
Qed.

Lemma minute_of_range (ns : Z) : (0 <= minute_of ns <= 59)%Z.
Proof.
  unfold minute_of.
  pose proof (Z.mod_pos_bound (ns / NS_PER_MINUTE) 60). lia.
Qed.





(** When the merged column is left as text, the filter raises for every
    hour. *)
Lemma data_by_hour_text_column (hour : Z) :
  data_by_hour
    (mkDF ["date_time"; "latitude"; "longitude"]
          [(0%nat, [Str "01/01/2020 nan"; Num (4071 # 100);
                    Num (-7400 # 100)])])
    hour
  = inl AttributeError.
Proof. reflexivity. Qed.

(** ** The minute histogram *)

Lemma bin_edge_60 (j : nat) :
  bin_edge 60 0 60 j == inject_Z (Z.of_nat j).
Proof.
  unfold bin_edge. change (inject_Z (Z.of_nat 60)) with 60%Q. field.
Qed.

Lemma edge_le_minute (j : nat) (m : Z) :
  Qle_bool (bin_edge 60 0 60 j) (inject_Z m) = (Z.of_nat j <=? m)%Z.
Proof.
  apply Bool.eq_iff_eq_true.
  rewrite Qle_bool_iff, Z.leb_le, bin_edge_60, <- Zle_Qle. reflexivity.
Qed.

Lemma minute_le_edge (j : nat) (m : Z) :
  Qle_bool (inject_Z m) (bin_edge 60 0 60 j) = (m <=? Z.of_nat j)%Z.
Proof.
  apply Bool.eq_iff_eq_true.
  rewrite Qle_bool_iff, Z.leb_le, bin_edge_60, <- Zle_Qle. reflexivity.
Qed.

(** A minute of 0..59 falls in the bin of its own number and in no other. *)
Lemma in_bin_minute (j : nat) (m : Z) :
  (j < 60)%nat -> (0 <= m <= 59)%Z ->
  in_bin 60 0 60 j (Num (inject_Z m)) = (m =? Z.of_nat j)%Z.
Proof.
  intros Hj Hm. unfold in_bin.
  rewrite edge_le_minute, minute_le_edge, edge_le_minute.
  destruct (Nat.eqb_spec (S j) 60) as [E | E].
  - destruct (Z.leb_spec (Z.of_nat j) m), (Z.leb_spec m (Z.of_nat (S j))),
      (Z.eqb_spec m (Z.of_nat j)); simpl; try reflexivity; lia.
  - destruct (Z.leb_spec (Z.of_nat j) m), (Z.leb_spec (Z.of_nat (S j)) m),
      (Z.eqb_spec m (Z.of_nat j)); simpl; try reflexivity; lia.
Qed.

Lemma minute_bin (j : nat) (c : cell) :
  (j < 60)%nat ->
  in_bin 60 0 60 j
    (match c with Stamp ns => Num (inject_Z (minute_of ns)) | _ => NaN end)
  = in_minute (Z.of_nat j) c.
Proof.
  intros Hj. destruct c as [| x | s | ns]; try reflexivity.
  simpl in_minute. apply in_bin_minute; [exact Hj | apply minute_of_range].
Qed.

Lemma nth_map_seq {A : Type} (f : nat -> A) (n i : nat) (d : A) :
  (i < n)%nat -> nth i (map f (seq 0 n)) d = f i.
Proof.
  intros Hi. rewrite nth_indep with (d' := f 0%nat).
  - rewrite map_nth. rewrite seq_nth by exact Hi. reflexivity.
  - rewrite length_map, length_seq. exact Hi.
Qed.




Lemma length_filter_map {A B : Type} (f : A -> B) (P : B -> bool)
  (l : list A) :
  List.length (filter P (map f l))
  = List.length (filter (fun x => P (f x)) l).
Proof.
  induction l as [| x l IH]; simpl; [reflexivity |].
  destruct (P (f x)); simpl; rewrite IH; reflexivity.
Qed.

(** Bin [j] of the histogram of the minutes counts the timestamps whose
    minute is [j]. *)
Lemma minute_histogram_bins (cells : list cell) :
  np_histogram
    (map (fun c => match c with
                   | Stamp ns => Num (inject_Z (minute_of ns))
                   | _ => NaN
                   end) cells) 60 0 60
  = map (fun j => List.length (filter (in_minute (Z.of_nat j)) cells))
        (seq 0 60).
Proof.
  unfold np_histogram. apply map_ext_in. intros j Hj.
  apply in_seq in Hj. rewrite length_filter_map. f_equal.
  apply filter_ext. intros c. apply minute_bin. lia.
Qed.




(** ** The loader *)



(** Renaming the header does not move a column whose name no other column
    is renamed to. *)
Lemma find_col_rename (h : string -> string) (name : string)
  (cols : list string) :
  h name = name ->
  (forall c, In c cols -> h c = name -> c = name) ->
  find_col name (map h cols) = find_col name cols.
Proof.
  intros Hname. induction cols as [| c cs IH]; simpl; intros Hinj;
    [reflexivity |].
  destruct (String.eqb_spec c name) as [E | E].
  - subst c. rewrite Hname, String.eqb_refl. reflexivity.
  - destruct (String.eqb_spec (h c) name) as [E' | E'].
    + exfalso. apply E. apply Hinj; auto.
    + rewrite IH; [reflexivity |]. intros c' Hc'. apply Hinj. auto.
Qed.

(** Merging the two date columns away keeps every other column over its
    own cells. *)
Lemma find_col_other_cells (name : string) (cols : list string)
  (cells : list cell) (p : nat) :
  not_date_col name = true ->
  find_col name cols = Some p ->
  exists p',
    find_col name (filter not_date_col cols) = Some p'
    /\ nth p' (other_cells cols cells) NaN = nth p cells NaN.
Proof.
  intros Hkeep. revert cells p.
  induction cols as [| c cs IH]; simpl; intros cells p H; [discriminate |].
  destruct (String.eqb_spec c name) as [E | E].
  - subst c. injection H as <-. rewrite Hkeep. simpl.
    rewrite String.eqb_refl. exists 0%nat. split; [reflexivity |].
    destruct cells as [| v vs]; [reflexivity |].
    unfold other_cells. simpl. rewrite Hkeep. reflexivity.
  - destruct (find_col name cs) as [q |] eqn:Hq; [| discriminate].
    simpl in H. injection H as <-.
    destruct cells as [| v vs].
    + destruct (IH [] q eq_refl) as (p' & Hp' & _).
      destruct (not_date_col c) eqn:Hc; simpl.
      * destruct (String.eqb_spec c name) as [E' | _]; [contradiction |].
        rewrite Hp'. simpl. exists (S p'). split; [reflexivity |].
        unfold other_cells. simpl. reflexivity.
      * exists p'. split; [exact Hp' |].
        unfold other_cells. simpl. destruct p'; reflexivity.
    + destruct (IH vs q eq_refl) as (p' & Hp' & Hnth).
      unfold other_cells. simpl.
      destruct (not_date_col c) eqn:Hc; simpl.
      * destruct (String.eqb_spec c name) as [E' | _]; [contradiction |].
        rewrite Hp'. simpl. exists (S p'). split; [reflexivity |].
        exact Hnth.
      * exists p'. split; [exact Hp' | exact Hnth].
Qed.

Lemma filter_map_swap {A B : Type} (f : A -> B) (P : B -> bool)
  (l : list A) :
  filter P (map f l) = map f (filter (fun x => P (f x)) l).
Proof.
  induction l as [| x l IH]; simpl; [reflexivity |].
  destruct (P (f x)); simpl; rewrite IH; reflexivity.
Qed.



(** A name other than the canonical one is reached from its own
    lower-casing only. *)
Lemma canonical_eq (c n : string) :
  canonical c = n -> n <> DATE_TIME -> lower c = n.
Proof.
  unfold canonical.
  destruct (String.eqb (lower c) "crash_date_crash_time"); congruence.
Qed.

(** In a header with no two names equal up to case, only a lower-case name
    itself is renamed to it. *)
Lemma canonical_inj (cols : list string) (c n : string) :
  NoDup (map lower cols) ->
  In n cols -> lower n = n -> n <> DATE_TIME ->
  In c cols -> canonical c = n -> c = n.
Proof.
  intros Hnd Hn Hlow Hne Hc Hcan.
  apply (NoDup_map_inj_on lower cols); auto.
  rewrite Hlow. apply canonical_eq; assumption.
Qed.

(** The frame [load_data] returns, spelled out. *)
Lemma load_data_frame (to_datetime : cell -> cell -> cell)
  (raw : DataFrame) :
  In "crash_date" (columns raw) -> In "crash_time" (columns raw) ->
  In "latitude" (columns raw) -> In "longitude" (columns raw) ->
  exists pd pt,
    find_col "crash_date" (columns raw) = Some pd
    /\ find_col "crash_time" (columns raw) = Some pt
    /\ load_data to_datetime raw
       = inr (mkDF (DATE_TIME
                      :: map canonical (filter not_date_col (columns raw)))
                   (map (fun r =>
                           (label r,
                            to_datetime (cell_at pd r) (cell_at pt r)
                              :: other_cells (columns raw) (snd r)))
                        (filter (has_coordinates raw) (rows raw)))).
Proof.
  intros Hd Ht Hlat Hlon.
  destruct (find_col_In _ _ Hd) as (pd & Hpd).
  destruct (find_col_In _ _ Ht) as (pt & Hpt).
  destruct (find_col_In _ _ Hlat) as (plat & Hplat).
  destruct (find_col_In _ _ Hlon) as (plon & Hplon).
  exists pd, pt. split; [exact Hpd |]. split; [exact Hpt |].
  unfold load_data, read_csv_parse_dates. rewrite Hpd, Hpt. simpl.
  unfold dropna_subset, col_loc. simpl.
  destruct (find_col_other_cells "latitude" (columns raw) [] plat
              eq_refl Hplat) as (plat' & Hplat' & _).
  destruct (find_col_other_cells "longitude" (columns raw) [] plon
              eq_refl Hplon) as (plon' & Hplon' & _).
  rewrite Hplat', Hplon'. simpl. unfold ret. f_equal.
  unfold rename_columns, rename_axis, select_rows. simpl.
  f_equal.
  - rewrite map_map. reflexivity.
  - rewrite filter_map_swap. f_equal. apply filter_ext. intros r.
    unfold has_coordinates, value, cell_at. simpl.
    rewrite Hplat, Hplon.
    destruct (find_col_other_cells "latitude" (columns raw) (snd r) plat
                eq_refl Hplat) as (q & Hq & Hlatv).
    rewrite Hplat' in Hq. injection Hq as <-.
    destruct (find_col_other_cells "longitude" (columns raw) (snd r) plon
                eq_refl Hplon) as (q & Hq & Hlonv).
    rewrite Hplon' in Hq. injection Hq as <-.
    rewrite Hlatv, Hlonv, andb_true_r. reflexivity.
Qed.

Lemma find_col_cons (name c : string) (cs : list string) :
  find_col name (c :: cs)
  = if String.eqb c name then Some 0%nat
    else option_map S (find_col name cs).
Proof. reflexivity. Qed.


Lemma raw_sample_header :
  In "crash_date" (columns raw_sample) /\ In "crash_time" (columns raw_sample)
  /\ In "latitude" (columns raw_sample)
  /\ In "longitude" (columns raw_sample)
  /\ NoDup (map lower (columns raw_sample)).
Proof.
  simpl. repeat split; auto 10.
  repeat constructor; simpl; intuition discriminate.
Qed.


(** ** The most dangerous streets *)

(** The frame that goes into the sort: street and count of the rows of the
    table with a count of at least one, in table order. *)
Lemma street_counts_inv (col : string) (data sel : DataFrame) :
  street_counts col data = inr sel ->
  exists p ps,
    find_col col (columns data) = Some p
    /\ find_col "on_street_name" (columns data) = Some ps
    /\ columns sel = ["on_street_name"; col]
    /\ rows sel
       = map (fun r => (label r, [cell_at ps r; cell_at p r]))
             (filter (fun r => cell_ge 1 (cell_at p r)) (rows data)).
Proof.
  unfold street_counts, query_ge. intros H. inv_bind H.
  destruct (find_col col (columns data)) as [p |] eqn:Hp; [| discriminate].
  destruct (forallb _ (rows data)); [| discriminate].
  injection Ha as <-.
  unfold getitems, col_loc, select_rows in H. cbn [mapM columns] in H.
  rewrite Hp in H.
  destruct (find_col "on_street_name" (columns data)) as [ps |];
    [| discriminate].
  simpl in H. injection H as <-.
  exists p, ps. repeat split; reflexivity.
Qed.

Lemma find_col_count (col : string) :
  col <> "on_street_name" ->
  find_col col ["on_street_name"; col] = Some 1%nat.
Proof.
  intros Hne. rewrite find_col_cons.
  destruct (String.eqb_spec "on_street_name" col) as [E | _];
    [congruence |].
  rewrite find_col_cons, String.eqb_refl. reflexivity.
Qed.

(** What [top_streets] returns, with the indexer the sort chose. *)
Lemma top_streets_inv (n : nat) (col : string) (data out : DataFrame) :
  col <> "on_street_name" ->
  top_streets n col data (inr out) ->
  exists sel indexer,
    street_counts col data = inr sel
    /\ is_nargsort_desc (map (cell_at 1) (rows sel)) indexer
    /\ out = head n (dropna_any (take indexer sel)).
Proof.
  intros Hne H. unfold top_streets in H.
  destruct (street_counts col data) as [e | sel] eqn:Hsel; [discriminate |].
  destruct H as (sorted & Hsort & Hout).
  destruct (street_counts_inv _ _ _ Hsel) as (p & ps & _ & _ & Hcols & _).
  inversion Hsort as [Hnone | q indexer Hq Hix]; subst sorted.
  - discriminate.
  - rewrite Hcols, (find_col_count col Hne) in Hq. injection Hq as <-.
    simpl in Hout. injection Hout as ->.
    exists sel, indexer. auto.
Qed.

Lemma StronglySorted_sublist {A : Type} (R : A -> A -> Prop)
  (k l : list A) :
  sublist k l -> StronglySorted R l -> StronglySorted R k.
Proof.
  induction 1 as [| x k l Hs IH | x k l Hs IH]; intros Hl.
  - constructor.
  - inversion Hl; subst. auto.
  - inversion Hl as [| y l' Hl' Hall]; subst. constructor; [auto |].
    eapply sublist_Forall; eauto.
Qed.

Lemma StronglySorted_map {A B : Type} (R : B -> B -> Prop) (f : A -> B)
  (l : list A) :
  StronglySorted R (map f l)
  <-> StronglySorted (fun a b => R (f a) (f b)) l.
Proof.
  induction l as [| x l IH]; simpl.
  - split; constructor.
  - split; intros H; inversion H as [| y l' Hl Hall]; subst;
      constructor; try (apply IH; assumption).
    + rewrite Forall_map in Hall. exact Hall.
    + rewrite Forall_map. exact Hall.
Qed.

Lemma all_numbers (P : Q -> Prop) (cs : list cell) :
  Forall (fun c => exists x, c = Num x /\ P x) cs ->
  exists xs, cs = map Num xs /\ Forall P xs.
Proof.
  induction 1 as [| c cs (x & -> & Hx) _ (xs & -> & Hxs)].
  - exists []. split; [reflexivity | constructor].
  - exists (x :: xs). split; [reflexivity | constructor; assumption].
Qed.

(** The rows of a frame taken along an indexer are rows of the frame. *)
Lemma take_rows_In (indexer : list nat) (df : DataFrame) (r : row) :
  Permutation indexer (seq 0 (List.length (rows df))) ->
  In r (rows (take indexer df)) -> In r (rows df).
Proof.
  intros Hperm Hr. simpl in Hr. apply in_map_iff in Hr as (i & <- & Hi).
  apply nth_In. eapply Permutation_in in Hi; [| exact Hperm].
  apply in_seq in Hi. lia.
Qed.

(** The keys of the rows taken along an indexer are the keys read along
    it. *)
Lemma take_keys (p : nat) (indexer : list nat) (df : DataFrame) :
  map (cell_at p) (rows (take indexer df))
  = map (fun i => nth i (map (cell_at p) (rows df)) NaN) indexer.
Proof.
  simpl. rewrite map_map. apply map_ext. intros i.
  assert (Hd : cell_at p (0%nat, @nil cell) = NaN).
  { unfold cell_at. simpl. destruct p; reflexivity. }
  rewrite <- Hd. rewrite map_nth. reflexivity.
Qed.

Lemma injury_column_not_street (col : string) :
  In col injury_columns -> col <> "on_street_name".
Proof.
  intros [<- | [<- | [<- | []]]]; discriminate.
Qed.

(** The ranking, row by row: a sublist of the sorted frame, every row with
    its street and a count of at least one. *)
Lemma top_streets_rows (n : nat) (col : string) (data out : DataFrame) :
  col <> "on_street_name" ->
  top_streets n col data (inr out) ->
  columns out = ["on_street_name"; col]
  /\ (List.length (rows out) <= n)%nat
  /\ Forall (fun r => notna (cell_at 0 r) = true) (rows out)
  /\ Forall (fun r => exists x, cell_at 1 r = Num x /\ (1 <= x)%Q) (rows out)
  /\ StronglySorted (fun a b => desc_nan_last (cell_at 1 a) (cell_at 1 b))
                    (rows out).
Proof.
  intros Hne H.
  destruct (top_streets_inv n col data out Hne H)
    as (sel & indexer & Hsel & [Hperm Hsorted] & ->).
  destruct (street_counts_inv _ _ _ Hsel) as (p & ps & _ & _ & Hcols & Hrows).
  rewrite length_map in Hperm.
  assert (Hsub : sublist (rows (head n (dropna_any (take indexer sel))))
                         (rows (take indexer sel))).
  { simpl. eapply sublist_trans; [apply sublist_firstn | apply sublist_filter]. }
  split; [exact Hcols |]. split; [| split; [| split]].
  - simpl. apply firstn_le_length.
  - apply Forall_forall. intros r Hr. simpl in Hr.
    eapply sublist_In in Hr; [| apply sublist_firstn].
    apply filter_In in Hr as [_ Hr].
    rewrite Hcols in Hr. simpl in Hr.
    apply andb_true_iff in Hr as [Hr _]. exact Hr.
  - apply Forall_forall. intros r Hr.
    eapply sublist_In in Hr; [| exact Hsub].
    apply take_rows_In in Hr; [| exact Hperm].
    rewrite Hrows in Hr. apply in_map_iff in Hr as (r0 & <- & Hr0).
    apply filter_In in Hr0 as [_ Hge]. unfold cell_at at 1. simpl.
    unfold cell_ge in Hge.
    destruct (cell_at p r0) as [| x | |]; try discriminate.
    exists x. split; [reflexivity |]. apply Qle_bool_iff in Hge. exact Hge.
  - apply StronglySorted_map.
    apply StronglySorted_sublist
      with (l := map (cell_at 1) (rows (take indexer sel))).
    + clear - Hsub. induction Hsub; simpl; auto.
    + rewrite take_keys. exact Hsorted.
Qed.

(** C5: for every table, every injury column the select box chooses among
    and every n, the ranking [top_streets] returns has at most n rows, each
    with its street name present and a count of at least one, and the
    counts do not increase down the ranking. *)
Theorem C5_top_streets_sorted_bounded (n : nat) (col : string)
  (data out : DataFrame) :
  In col injury_columns ->
  top_streets n col data (inr out) ->
  (List.length (rows out) <= n)%nat
  /\ Forall (fun r => notna (value "on_street_name" out r) = true)
            (rows out)
  /\ exists counts,
       map (value col out) (rows out) = map Num counts
       /\ StronglySorted (fun x y => (y <= x)%Q) counts
       /\ Forall (fun x => (1 <= x)%Q) counts.
Proof.
  intros Hcol H. pose proof (injury_column_not_street col Hcol) as Hne.
  destruct (top_streets_rows n col data out Hne H)
    as (Hcols & Hlen & Hstreet & Hcount & Hsorted).
  split; [exact Hlen |].
  assert (Hvs : forall r, value "on_street_name" out r = cell_at 0 r).
  { intros r. unfold value. rewrite Hcols. reflexivity. }
  assert (Hvc : forall r, value col out r = cell_at 1 r).
  { intros r. unfold value. rewrite Hcols, (find_col_count col Hne).
    reflexivity. }
  split.
  - eapply Forall_impl; [| exact Hstreet]. intros r Hr. rewrite Hvs.
    exact Hr.
  - destruct (all_numbers (fun x => (1 <= x)%Q) (map (cell_at 1) (rows out)))
      as (counts & Hcounts & Hge).
    { rewrite Forall_map. exact Hcount. }
    exists counts. split; [| split].
    + rewrite <- Hcounts. apply map_ext. exact Hvc.
    + apply (proj2 (StronglySorted_map desc_nan_last (cell_at 1) _))
        in Hsorted.
      rewrite Hcounts in Hsorted.
      exact (proj1 (StronglySorted_map desc_nan_last Num counts) Hsorted).
    + exact Hge.
Qed.

(** Closes the order of a concrete list of keys. *)
Ltac keys_in_order :=
  repeat constructor; simpl; try (apply Qle_bool_iff; reflexivity).

(** A run of one branch over a concrete table, with the indexer given. *)
Ltac run_top_streets sel ix :=
  unfold top_streets;
  replace (street_counts _ _) with (@inr exn DataFrame sel)
    by reflexivity;
  exists (ret (take ix sel)); split;
  [ apply sort_values_take with (p := 1%nat);
    [ reflexivity
    | split; [ | keys_in_order ] ]
  | reflexivity ].

Lemma pedestrians_in_order_run :
  top_streets 5 "number_of_pedestrians_injured" streets_table
    (inr pedestrians_in_order).
Proof.
  run_top_streets
    (mkDF ["on_street_name"; "number_of_pedestrians_injured"]
          [(0%nat, [Str "BROADWAY"; Num 2]);
           (1%nat, [Str "5 AVENUE"; Num 2]);
           (2%nat, [NaN; Num 3])])
    [2%nat; 0%nat; 1%nat].
  simpl. apply (Permutation_cons_append [0; 1]%nat 2%nat).
Qed.


Lemma motorists_ranking_run :
  top_streets 5 "number_of_motorist_injured" streets_table
    (inr motorists_ranking).
Proof.
  run_top_streets
    (mkDF ["on_street_name"; "number_of_motorist_injured"]
          [(0%nat, [Str "BROADWAY"; Num 1]);
           (1%nat, [Str "5 AVENUE"; Num 3]);
           (3%nat, [Str "CANAL STREET"; Num 3])])
    [1%nat; 2%nat; 0%nat].
  simpl. apply Permutation_sym.
  apply (Permutation_cons_append [1; 2]%nat 0%nat).
Qed.

Lemma C5_top_streets_sorted_bounded_witness :
  In "number_of_pedestrians_injured" injury_columns
  /\ top_streets 5 "number_of_pedestrians_injured" streets_table
       (inr pedestrians_in_order)
  /\ (List.length (rows pedestrians_in_order) <= 5)%nat
  /\ Forall (fun r => notna (value "on_street_name" pedestrians_in_order r)
                      = true)
            (rows pedestrians_in_order)
  /\ exists counts,
       map (value "number_of_pedestrians_injured" pedestrians_in_order)
           (rows pedestrians_in_order)
       = map Num counts
       /\ StronglySorted (fun x y => (y <= x)%Q) counts
       /\ Forall (fun x => (1 <= x)%Q) counts.
Proof.
  assert (Hcol : In "number_of_pedestrians_injured" injury_columns).
  { simpl. auto. }
  split; [exact Hcol |]. split; [exact pedestrians_in_order_run |].
  exact (C5_top_streets_sorted_bounded 5 "number_of_pedestrians_injured"
           streets_table pedestrians_in_order Hcol
           pedestrians_in_order_run).
Defined.

(** ** The select box *)




(** ** Rows with equal counts *)


(** ** The sort contract can be met *)

Lemma desc_nan_last_trans (a b c : cell) :
  desc_nan_last a b -> desc_nan_last b c -> desc_nan_last a c.
Proof.
  destruct a as [| x | s | m], b as [| y | t | k], c as [| z | u | l];
    simpl; try tauto.
  intros Hyx Hzy. eapply Qle_trans; eauto.
Qed.

Lemma key_before_true (a b : cell) :
  key_before a b = true -> desc_nan_last a b.
Proof.
  destruct a as [| x | s | m], b as [| y | t | k]; simpl;
    try discriminate; try tauto.
  intros H. apply negb_true_iff in H.
  apply Qlt_le_weak, Qnot_le_lt. intros Hle.
  apply Qle_bool_iff in Hle. congruence.
Qed.

Lemma key_before_false (a b : cell) :
  is_numeric a = true -> is_numeric b = true ->
  key_before a b = false -> desc_nan_last b a.
Proof.
  destruct a as [| x | s | m], b as [| y | t | k]; simpl;
    try discriminate; try tauto.
  intros _ _ H. apply negb_false_iff in H. apply Qle_bool_iff. exact H.
Qed.

Lemma insert_desc_perm (keys : list cell) (i : nat) (s : list nat) :
  Permutation (insert_desc keys i s) (i :: s).
Proof.
  induction s as [| j s IH]; simpl; [reflexivity |].
  destruct (key_before _ _); [reflexivity |].
  rewrite IH. apply perm_swap.
Qed.

Lemma insert_desc_sorted (keys : list cell) (i : nat) (s : list nat) :
  forallb is_numeric keys = true ->
  StronglySorted desc_nan_last (map (fun j => nth j keys NaN) s) ->
  StronglySorted desc_nan_last
    (map (fun j => nth j keys NaN) (insert_desc keys i s)).
Proof.
  intros Hnum.
  assert (Hkey : forall j, is_numeric (nth j keys NaN) = true).
  { intros j. destruct (Nat.lt_ge_cases j (List.length keys)) as [Hj | Hj].
    - rewrite forallb_forall in Hnum. apply Hnum. apply nth_In. exact Hj.
    - rewrite nth_overflow by exact Hj. reflexivity. }
  induction s as [| j s IH]; simpl; intros Hs.
  - repeat constructor.
  - inversion Hs as [| k l Hl Hall]; subst.
    destruct (key_before (nth i keys NaN) (nth j keys NaN)) eqn:Hb; simpl.
    + constructor; [exact Hs |].
      apply key_before_true in Hb. constructor; [exact Hb |].
      eapply Forall_impl; [| exact Hall].
      intros c Hc. eapply desc_nan_last_trans; eauto.
    + constructor; [apply IH; exact Hl |].
      rewrite Forall_map.
      apply Forall_forall. intros k Hk.
      eapply Permutation_in in Hk; [| apply insert_desc_perm].
      destruct Hk as [<- | Hk].
      * apply key_before_false; auto.
      * rewrite Forall_map, Forall_forall in Hall. apply Hall. exact Hk.
Qed.

Lemma fold_insert_desc (keys : list cell) (l acc : list nat) :
  forallb is_numeric keys = true ->
  StronglySorted desc_nan_last (map (fun j => nth j keys NaN) acc) ->
  Permutation (fold_left (fun a i => insert_desc keys i a) l acc) (acc ++ l)
  /\ StronglySorted desc_nan_last
       (map (fun j => nth j keys NaN)
            (fold_left (fun a i => insert_desc keys i a) l acc)).
Proof.
  intros Hnum. revert acc.
  induction l as [| i l IH]; simpl; intros acc Hacc.
  - rewrite app_nil_r. split; [reflexivity | exact Hacc].
  - destruct (IH (insert_desc keys i acc)) as [Hperm Hsorted].
    { apply insert_desc_sorted; assumption. }
    split; [| exact Hsorted].
    rewrite Hperm, insert_desc_perm. apply Permutation_middle.
Qed.

(** Over a numeric column the stable indexer meets the contract of the
    sort: an admissible indexer exists. *)
Lemma stable_nargsort_desc_ok (keys : list cell) :
  forallb is_numeric keys = true ->
  is_nargsort_desc keys (stable_nargsort_desc keys).
Proof.
  intros Hnum. unfold is_nargsort_desc, stable_nargsort_desc.
  destruct (fold_insert_desc keys (seq 0 (List.length keys)) [] Hnum)
    as [Hperm Hsorted].
  - constructor.
  - split; [exact Hperm | exact Hsorted].
Qed.

(** Once the rows are selected, the ranking is defined: the sort and what
    follows it do not raise. *)
Lemma top_streets_defined (n : nat) (col : string) (data sel : DataFrame) :
  col <> "on_street_name" ->
  street_counts col data = inr sel ->
  exists out, top_streets n col data (inr out).
Proof.
  intros Hne Hsel. unfold top_streets. rewrite Hsel.
  destruct (street_counts_inv _ _ _ Hsel) as (p & ps & _ & _ & Hcols & Hrows).
  exists (head n (dropna_any
                    (take (stable_nargsort_desc (map (cell_at 1) (rows sel)))
                          sel))).
  exists (ret (take (stable_nargsort_desc (map (cell_at 1) (rows sel))) sel)).
  split; [| reflexivity].
  apply sort_values_take with (p := 1%nat).
  - rewrite Hcols. apply find_col_count. exact Hne.
  - apply stable_nargsort_desc_ok. apply forallb_forall. intros c Hc.
    apply in_map_iff in Hc as (r & <- & Hr). rewrite Hrows in Hr.
    apply in_map_iff in Hr as (r0 & <- & Hr0).
    apply filter_In in Hr0 as [_ Hge]. unfold cell_at at 1. simpl.
    unfold cell_ge in Hge. destruct (cell_at p r0); try discriminate.
    reflexivity.
Qed.



(** ** Stacked value counts *)

Lemma cell_eqb_refl (a : cell) : cell_eqb a a = true.
Proof.
  destruct a as [| x | s | m]; simpl.
  - reflexivity.
  - apply Qeq_bool_iff. reflexivity.
  - apply String.eqb_refl.
  - apply Z.eqb_refl.
Qed.

Lemma cell_eqb_sym (a b : cell) : cell_eqb a b = cell_eqb b a.
Proof.
  destruct a as [| x | s | m], b as [| y | t | k]; simpl; try reflexivity.
  - apply Bool.eq_iff_eq_true. rewrite !Qeq_bool_iff.
    split; intros H; symmetry; exact H.
  - apply String.eqb_sym.
  - apply Z.eqb_sym.
Qed.

Lemma cell_eqb_trans (a b c : cell) :
  cell_eqb a b = true -> cell_eqb b c = true -> cell_eqb a c = true.
Proof.
  destruct a as [| x | s | m], b as [| y | t | k], c as [| z | u | l];
    simpl; try discriminate; try reflexivity.
  - rewrite !Qeq_bool_iff. intros H1 H2. rewrite H1. exact H2.
  - rewrite !String.eqb_eq. congruence.
  - rewrite !Z.eqb_eq. congruence.
Qed.

Lemma count_in_snoc (w v : cell) (vals : list cell) :
  count_in w (vals ++ [v])
  = (count_in w vals + if cell_eqb w v then 1 else 0)%nat.
Proof.
  unfold count_in. rewrite filter_app, length_app. simpl.
  destruct (cell_eqb w v); reflexivity.
Qed.

Lemma count_in_none (w : cell) (vals : list cell) :
  (forall v, In v vals -> cell_eqb w v = false) -> count_in w vals = 0%nat.
Proof.
  unfold count_in. induction vals as [| v vals IH]; simpl; intros H;
    [reflexivity |].
  rewrite (H v) by auto. apply IH. intros u Hu. apply H. auto.
Qed.

(** Where an entry of the table comes from after one more value. *)
Lemma tally_In (v : cell) (t : list (cell * nat)) (w : cell) (k : nat) :
  ForallOrdPairs (fun a b => cell_eqb (fst a) (fst b) = false) t ->
  In (w, k) (tally v t) ->
  (cell_eqb w v = false /\ In (w, k) t)
  \/ (cell_eqb w v = true /\ exists k0, k = S k0 /\ In (w, k0) t)
  \/ (w = v /\ k = 1%nat
      /\ Forall (fun e => cell_eqb (fst e) v = false) t).
Proof.
  induction t as [| [w0 k0] t IH]; simpl; intros Hpw Hin.
  - destruct Hin as [[= <- <-] | []]. right. right. auto.
  - inversion Hpw as [| e l Hall Hpw']; subst.
    destruct (cell_eqb w0 v) eqn:Hw0.
    + destruct Hin as [[= <- <-] | Hin].
      * right. left. split; [exact Hw0 |]. exists k0. auto.
      * left. split; [| auto].
        rewrite Forall_forall in Hall. specialize (Hall _ Hin).
        simpl in Hall.
        destruct (cell_eqb w v) eqn:Hwv; [| reflexivity].
        rewrite cell_eqb_sym in Hwv.
        rewrite (cell_eqb_trans _ _ _ Hw0 Hwv) in Hall. discriminate.
    + destruct Hin as [[= <- <-] | Hin].
      * left. auto.
      * destruct (IH Hpw' Hin) as [[Hf Hi] | [[Ht (k1 & -> & Hi)] | H3]].
        -- left. auto.
        -- right. left. split; [exact Ht |]. exists k1. auto.
        -- destruct H3 as (-> & -> & Hnone). right. right.
           repeat split; auto.
Qed.

Lemma tally_keys (v : cell) (t : list (cell * nat)) (e : cell * nat) :
  In e (tally v t) -> fst e = v \/ exists e', In e' t /\ fst e' = fst e.
Proof.
  induction t as [| [w0 k0] t IH]; simpl; intros Hin.
  - destruct Hin as [<- | []]. auto.
  - destruct (cell_eqb w0 v).
    + destruct Hin as [<- | Hin].
      * right. exists (w0, k0). auto.
      * right. exists e. auto.
    + destruct Hin as [<- | Hin].
      * right. exists (w0, k0). auto.
      * destruct (IH Hin) as [H | (e' & He' & Hk)]; [auto |].
        right. exists e'. auto.
Qed.

Lemma tally_pairwise (v : cell) (t : list (cell * nat)) :
  ForallOrdPairs (fun a b => cell_eqb (fst a) (fst b) = false) t ->
  ForallOrdPairs (fun a b => cell_eqb (fst a) (fst b) = false) (tally v t).
Proof.
  induction t as [| [w0 k0] t IH]; simpl; intros Hpw.
  - repeat constructor.
  - inversion Hpw as [| e l Hall Hpw']; subst.
    destruct (cell_eqb w0 v) eqn:Hw0.
    + constructor; assumption.
    + constructor; [| apply IH; exact Hpw'].
      apply Forall_forall. intros e He. simpl.
      destruct (tally_keys _ _ _ He) as [-> | (e' & He' & <-)].
      * exact Hw0.
      * rewrite Forall_forall in Hall. apply (Hall e' He').
Qed.

Lemma tally_cover (v u : cell) (t : list (cell * nat)) :
  (u = v \/ exists w k, In (w, k) t /\ cell_eqb w u = true) ->
  exists w k, In (w, k) (tally v t) /\ cell_eqb w u = true.
Proof.
  induction t as [| [w0 k0] t IH]; simpl; intros H.
  - destruct H as [-> | (w & k & [] & _)].
    exists v, 1%nat. split; [auto | apply cell_eqb_refl].
  - destruct (cell_eqb w0 v) eqn:Hw0.
    + destruct H as [-> | (w & k & [[= <- <-] | Hin] & Hwu)].
      * exists w0, (S k0). simpl. auto.
      * exists w0, (S k0). simpl. auto.
      * exists w, k. simpl. auto.
    + destruct H as [-> | (w & k & [[= <- <-] | Hin] & Hwu)].
      * destruct IH as (w & k & Hin & Hw); [auto |].
        exists w, k. simpl. auto.
      * exists w0, k0. simpl. auto.
      * destruct IH as (w' & k' & Hin' & Hw'); [eauto |].
        exists w', k'. simpl. auto.
Qed.

Lemma tally_counts_of (v : cell) (vals : list cell)
  (t : list (cell * nat)) :
  counts_of vals t -> counts_of (vals ++ [v]) (tally v t).
Proof.
  intros (Hcount & Hpw & Hcover). split; [| split].
  - intros w k Hin. rewrite count_in_snoc.
    destruct (tally_In v t w k Hpw Hin)
      as [[Hf Hi] | [[Ht (k0 & -> & Hi)] | (-> & -> & Hnone)]].
    + destruct (Hcount _ _ Hi) as [Hw ->]. rewrite Hf.
      split; [apply in_or_app; auto | lia].
    + destruct (Hcount _ _ Hi) as [Hw ->]. rewrite Ht.
      split; [apply in_or_app; auto | lia].
    + rewrite cell_eqb_refl. split; [apply in_or_app; simpl; auto |].
      rewrite count_in_none; [reflexivity |].
      intros u Hu. destruct (Hcover u Hu) as (w & k & Hin' & Hwu).
      rewrite Forall_forall in Hnone. specialize (Hnone _ Hin').
      simpl in Hnone.
      destruct (cell_eqb v u) eqn:Hvu; [| reflexivity].
      rewrite cell_eqb_sym in Hvu.
      rewrite (cell_eqb_trans _ _ _ Hwu Hvu) in Hnone. discriminate.
  - apply tally_pairwise. exact Hpw.
  - intros u Hu. apply tally_cover.
    apply in_app_or in Hu as [Hu | [<- | []]]; auto.
Qed.

(** The table of counts counts. *)
Lemma count_table_counts_of (vals : list cell) :
  counts_of vals (count_table vals).
Proof.
  unfold count_table.
  assert (H : forall seen t,
             counts_of seen t ->
             counts_of (seen ++ vals)
                       (fold_left (fun t v => tally v t) vals t)).
  { induction vals as [| v vals IH]; simpl; intros seen t Hinv.
    - rewrite app_nil_r. exact Hinv.
    - replace (seen ++ v :: vals) with ((seen ++ [v]) ++ vals)
        by (rewrite <- app_assoc; reflexivity).
      apply IH. apply tally_counts_of. exact Hinv. }
  apply (H [] []). split; [| split].
  - intros w k [].
  - constructor.
  - intros v [].
Qed.

(** Reading a list along a permutation of its positions keeps its
    elements. *)
Lemma indexed_In {A : Type} (l : list A) (d e : A) (indexer : list nat) :
  Permutation indexer (seq 0 (List.length l)) ->
  In e (map (fun i => nth i l d) indexer) <-> In e l.
Proof.
  intros Hperm. split.
  - intros Hin. apply in_map_iff in Hin as (i & <- & Hi).
    apply nth_In. eapply Permutation_in in Hi; [| exact Hperm].
    apply in_seq in Hi. lia.
  - intros Hin. destruct (In_nth l e d Hin) as (i & Hi & <-).
    apply in_map_iff. exists i. split; [reflexivity |].
    eapply Permutation_in; [apply Permutation_sym, Hperm |].
    apply in_seq. lia.
Qed.

Lemma flat_map_map {A B C : Type} (f : B -> list C) (g : A -> B)
  (l : list A) :
  flat_map f (map g l) = flat_map (fun x => f (g x)) l.
Proof.
  induction l as [| x l IH]; simpl; [reflexivity |].
  rewrite IH. reflexivity.
Qed.

Lemma present_values {K : Type} (key : K) (v : cell) :
  map snd (present key v) = if isna v then [] else [v].
Proof. unfold present. destruct (isna v); reflexivity. Qed.

(** The values of the stacked stream of two columns, and their counts. *)
Lemma stacked_values (f1 f2 : row -> cell) (k1 k2 : row -> nat * string)
  (l : list row) :
  let vals := map snd (flat_map (fun r => present (k1 r) (f1 r)
                                          ++ present (k2 r) (f2 r)) l) in
  filter notna vals = vals
  /\ (forall r v, In r l -> v = f1 r \/ v = f2 r -> notna v = true ->
        In v vals)
  /\ (forall w, notna w = true ->
        count_in w vals
        = (List.length (filter (fun r => cell_eqb w (f1 r)) l)
           + List.length (filter (fun r => cell_eqb w (f2 r)) l))%nat).
Proof.
  simpl. induction l as [| r l (IHna & IHin & IHcount)]; simpl.
  - split; [reflexivity |]. split; [intros r v [] |]. reflexivity.
  - rewrite !map_app, !present_values. split; [| split].
    + rewrite !filter_app, IHna.
      destruct (f1 r), (f2 r); reflexivity.
    + intros r' v [<- | Hr'] Hv Hna.
      * apply in_or_app. left. apply in_or_app.
        unfold notna in Hna. apply negb_true_iff in Hna.
        destruct Hv as [-> | ->]; rewrite Hna; simpl; auto.
      * apply in_or_app. right. eapply IHin; eauto.
    + intros w Hw. unfold count_in in *. rewrite !filter_app, !length_app.
      rewrite (IHcount w Hw).
      assert (Hone : forall v,
                 List.length
                   (filter (cell_eqb w) (if isna v then [] else [v]))
                 = if cell_eqb w v then 1%nat else 0%nat).
      { intros v. destruct v, w; simpl; try reflexivity; try discriminate;
          match goal with |- context [if ?b then _ else _] =>
            destruct b; reflexivity end. }
      rewrite !Hone.
      destruct (cell_eqb w (f1 r)), (cell_eqb w (f2 r)); simpl; lia.
Qed.

(** In [top_values] over two columns, the columns are stacked cell by
    cell and the counts are those of the cells. *)
Lemma top_values_cell_wise (n : nat) (c1 c2 : string)
  (data : DataFrame) (out : list (cell * nat)) :
  top_values n [c1; c2] data (inr out) ->
  cell_wise_counts n c1 c2 data out.
Proof.
  unfold top_values. intros H.
  destruct (getitems [c1; c2] data) as [e | sel] eqn:Hsel; [discriminate |].
  destruct H as (vc & Hvc & [= ->]).
  exists sel, vc. split; [exact Hsel |].
  unfold getitems, col_loc in Hsel. cbn [mapM] in Hsel.
  destruct (find_col c1 (columns data)) as [p1 |] eqn:Hp1; [| discriminate].
  destruct (find_col c2 (columns data)) as [p2 |] eqn:Hp2; [| discriminate].
  simpl in Hsel. injection Hsel as <-.
  assert (Hstack :
            stack (mkDF [c1; c2]
                     (map (fun r => (label r, [cell_at p1 r; cell_at p2 r]))
                          (rows data)))
            = flat_map (fun r => present (label r, c1) (value c1 data r)
                                 ++ present (label r, c2) (value c2 data r))
                       (rows data)).
  { unfold stack. cbn [columns rows]. rewrite flat_map_map.
    apply flat_map_ext. intros r. unfold value. rewrite Hp1, Hp2.
    simpl. rewrite app_nil_r. reflexivity. }
  split; [exact Hstack |]. split; [exact Hvc |]. split; [reflexivity |].
  destruct Hvc as (indexer & [Hperm _] & ->).
  rewrite Hstack in *.
  destruct (stacked_values (value c1 data) (value c2 data)
              (fun r => (label r, c1)) (fun r => (label r, c2)) (rows data))
    as (Hna & Hin & Hcount).
  rewrite Hna in *.
  set (vals := map snd (flat_map _ (rows data))) in *.
  destruct (count_table_counts_of vals) as (Hcounts & _ & Hcover).
  rewrite length_map in Hperm.
  split.
  - intros w k Hwk. apply (indexed_In _ _ _ _ Hperm) in Hwk.
    destruct (Hcounts _ _ Hwk) as [Hw ->].
    assert (Hwna : notna w = true).
    { rewrite <- Hna in Hw. apply filter_In in Hw as [_ Hw]. exact Hw. }
    split; [exact Hwna |]. apply Hcount. exact Hwna.
  - intros r v Hr Hv Hvna.
    destruct (Hcover v (Hin r v Hr Hv Hvna)) as (w & k & Hwk & Hwv).
    exists w, k. split; [| exact Hwv].
    apply (indexed_In _ _ _ _ Hperm). exact Hwk.
Qed.

Lemma factors_table_run :
  factors factors_table
    (inr [(Str "Unspecified", 4%nat); (Str "Driver Inattention", 2%nat)]).
Proof.
  unfold factors, top_values.
  replace (getitems factor_columns factors_table)
    with (@inr exn DataFrame factors_table) by reflexivity.
  exists [(Str "Unspecified", 4%nat); (Str "Driver Inattention", 2%nat)].
  split; [| reflexivity].
  exists [0%nat; 1%nat]. split; [| reflexivity].
  split; [reflexivity | keys_in_order].
Qed.

(** C10: in [factors] and in [vehicle_types] the two columns are stacked
    cell by cell.  A row adds to the stream the value of each of its two
    cells that is present: one value if exactly one is missing, none if
    both are.  So each count is the number of cells of the two columns that
    hold the value, and the value of every present cell has a count. *)
Theorem C10_stack_drops_cell_wise (data : DataFrame)
  (out : list (cell * nat)) :
  (factors data (inr out) ->
   cell_wise_counts 20 "contributing_factor_vehicle_1"
     "contributing_factor_vehicle_2" data out)
  /\ (vehicle_types data (inr out) ->
      cell_wise_counts 10 "vehicle_type_code_1" "vehicle_type_code_2"
        data out).
Proof.
  split; intros H.
  - unfold factors, factor_columns in H.
    apply top_values_cell_wise. exact H.
  - unfold vehicle_types, vehicle_type_columns in H.
    apply top_values_cell_wise. exact H.
Qed.

Lemma C10_stack_drops_cell_wise_witness :
  factors factors_table
    (inr [(Str "Unspecified", 4%nat); (Str "Driver Inattention", 2%nat)])
  /\ cell_wise_counts 20 "contributing_factor_vehicle_1"
       "contributing_factor_vehicle_2" factors_table
       [(Str "Unspecified", 4%nat); (Str "Driver Inattention", 2%nat)].
Proof.
  split; [exact factors_table_run |].
  exact (proj1 (C10_stack_drops_cell_wise factors_table _)
           factors_table_run).
Defined.

(** The stream stacked from the sample: one entry for the first and the
    fourth collision, none for the third. *)
Lemma stack_factors_table :
  stack factors_table
  = [((0%nat, "contributing_factor_vehicle_1"), Str "Unspecified");
     ((1%nat, "contributing_factor_vehicle_1"), Str "Driver Inattention");
     ((1%nat, "contributing_factor_vehicle_2"), Str "Unspecified");
     ((3%nat, "contributing_factor_vehicle_2"), Str "Driver Inattention");
     ((4%nat, "contributing_factor_vehicle_1"), Str "Unspecified");
     ((4%nat, "contributing_factor_vehicle_2"), Str "Unspecified")].
Proof. reflexivity. Qed.

(** ** The correlation matrix *)


















(** ** The table order of equal counts is one of the outcomes *)

Lemma sublist_filter_mono {A : Type} (f : A -> bool) (k l : list A) :
  sublist k l -> sublist (filter f k) (filter f l).
Proof.
  induction 1 as [| x k l H IH | x k l H IH]; simpl.
  - constructor.
  - destruct (f x); auto.
  - destruct (f x); auto.
Qed.

Lemma sublist_map {A B : Type} (f : A -> B) (k l : list A) :
  sublist k l -> sublist (map f k) (map f l).
Proof. induction 1; simpl; auto. Qed.

Lemma map_nth_seq {A : Type} (l : list A) (d : A) :
  map (fun i => nth i l d) (seq 0 (List.length l)) = l.
Proof.
  apply (nth_ext _ _ d d).
  - rewrite length_map, length_seq. reflexivity.
  - intros i Hi. rewrite length_map, length_seq in Hi.
    exact (nth_map_seq (fun j => nth j l d) (List.length l) i d Hi).
Qed.










(** ** The operations are defined on well-formed tables *)

Lemma street_counts_defined (col : string) (data : DataFrame) (p : nat) :
  find_col col (columns data) = Some p ->
  forallb (fun r => is_numeric (cell_at p r)) (rows data) = true ->
  In "on_street_name" (columns data) ->
  exists sel, street_counts col data = inr sel.
Proof.
  intros Hp Hnum Hs. destruct (find_col_In _ _ Hs) as (ps & Hps).
  unfold street_counts, query_ge. rewrite Hp, Hnum. simpl.
  unfold getitems, col_loc. cbn [mapM select_rows columns].
  rewrite Hps, Hp. simpl. eexists. reflexivity.
Qed.

(** The select box always gets a ranking from a table that has the street
    column and a numeric column of counts. *)
Lemma select_view_defined (select : string) (data : DataFrame) :
  In "on_street_name" (columns data) ->
  (forall col, In col injury_columns ->
     exists p, find_col col (columns data) = Some p
       /\ forallb (fun r => is_numeric (cell_at p r)) (rows data) = true) ->
  exists out, select_view select data (inr out).
Proof.
  intros Hs Hcols.
  assert (Hbranch : forall col, In col injury_columns ->
            exists out, top_streets 5 col data (inr out)).
  { intros col Hcol. destruct (Hcols col Hcol) as (p & Hp & Hnum).
    destruct (street_counts_defined col data p Hp Hnum Hs) as (sel & Hsel).
    eapply top_streets_defined; eauto.
    apply injury_column_not_street. exact Hcol. }
  unfold select_view.
  destruct (String.eqb select "Pedestrians");
    [| destruct (String.eqb select "Cyclists")];
    apply Hbranch; simpl; auto.
Qed.

Lemma top_values_defined (n : nat) (c1 c2 : string) (data : DataFrame) :
  In c1 (columns data) -> In c2 (columns data) ->
  exists out, top_values n [c1; c2] data (inr out).
Proof.
  intros H1 H2.
  destruct (find_col_In _ _ H1) as (p1 & Hp1).
  destruct (find_col_In _ _ H2) as (p2 & Hp2).
  unfold top_values, getitems, col_loc. cbn [mapM].
  rewrite Hp1, Hp2. cbn [bind ret].
  set (sel := mkDF _ _).
  set (t := count_table (filter notna (map snd (stack sel)))).
  set (keys := map (fun e : cell * nat => Num (inject_Z (Z.of_nat (snd e))))
                   t).
  exists (firstn n (map (fun i => nth i t (NaN, 0%nat))
                        (stable_nargsort_desc keys))).
  exists (map (fun i => nth i t (NaN, 0%nat)) (stable_nargsort_desc keys)).
  split; [| reflexivity].
  exists (stable_nargsort_desc keys). split; [| reflexivity].
  apply stable_nargsort_desc_ok. apply forallb_forall.
  intros c Hc. apply in_map_iff in Hc as (e & <- & _). reflexivity.
Qed.

(** ** Sample runs *)

Example filter_by_hour_10 :
  data_by_hour sample_table 10
  = inr (mkDF (columns sample_table) (firstn 2 (rows sample_table))).
Proof. reflexivity. Qed.

Example filter_by_hour_14 :
  data_by_hour sample_table 14
  = inr (mkDF (columns sample_table) (skipn 2 (rows sample_table))).
Proof. reflexivity. Qed.

Example minute_histogram_10 :
  exists filtered h,
    data_by_hour sample_table 10 = inr filtered
    /\ hist filtered = inr h
    /\ nth 15 h 0%nat = 1%nat /\ nth 40 h 0%nat = 1%nat
    /\ total h = 2%nat.
Proof.
  eexists. eexists. split; [reflexivity |]. split; [reflexivity |].
  vm_compute. auto.
Qed.

(** * More of the script *)

(** ** How the loader fails *)

Lemma find_col_None (name : string) (cols : list string) :
  find_col name cols = None <-> ~ In name cols.
Proof.
  split.
  - intros H Hin. apply find_col_In in Hin as (p & Hp). congruence.
  - intros H. destruct (find_col name cols) as [p |] eqn:Hp; [| reflexivity].
    exfalso. apply H. clear H. revert p Hp.
    induction cols as [| c cs IH]; simpl; intros p Hp; [discriminate |].
    destruct (String.eqb_spec c name) as [E | E]; [auto |].
    destruct (find_col name cs) as [q |]; [| discriminate]. eauto.
Qed.

(** A column other than the two date columns is in the header [read_csv]
    returns exactly when it is in the file. *)
Lemma find_col_merged (name : string) (cols : list string) :
  not_date_col name = true ->
  name <> "crash_date_crash_time" ->
  (exists p, find_col name ("crash_date_crash_time"
                              :: filter not_date_col cols) = Some p)
  <-> In name cols.
Proof.
  intros Hkeep Hne. rewrite find_col_cons.
  destruct (String.eqb_spec "crash_date_crash_time" name) as [E | _];
    [congruence |].
  split.
  - intros (p & Hp).
    destruct (in_dec string_dec name (filter not_date_col cols))
      as [Hin | Hin].
    + apply filter_In in Hin. apply Hin.
    + apply find_col_None in Hin. rewrite Hin in Hp. discriminate.
  - intros Hin. apply find_col_In in Hin as (p & Hp).
    destruct (find_col_other_cells name cols [] p Hkeep Hp) as (q & -> & _).
    simpl. eauto.
Qed.



(** A file whose coordinate columns are spelled in upper case does not
    load. *)
Example load_data_upper_case_header (to_datetime : cell -> cell -> cell) :
  load_data to_datetime
    (mkDF ["crash_date"; "crash_time"; "LATITUDE"; "LONGITUDE"] [])
  = inl (KeyError "latitude").
Proof. reflexivity. Qed.

(** ** More on the minimum-injury filter *)

Lemma sublist_filter_weaken {A : Type} (f g : A -> bool) (l : list A) :
  (forall x, f x = true -> g x = true) ->
  sublist (filter f l) (filter g l).
Proof.
  intros Himp. induction l as [| x l IH]; simpl; [constructor |].
  destruct (f x) eqn:Hf.
  - rewrite (Himp x Hf). auto.
  - destruct (g x); auto.
Qed.

Lemma cell_ge_antitone (t t' : Z) (c : cell) :
  (t <= t')%Z -> cell_ge t' c = true -> cell_ge t c = true.
Proof.
  intros Hle. destruct c as [| x | |]; simpl; try discriminate.
  rewrite !Qle_bool_iff. intros H.
  eapply Qle_trans; [| exact H]. rewrite <- Zle_Qle. exact Hle.
Qed.

Lemma numeric_column_at (name : string) (data : DataFrame) (p : nat) :
  find_col name (columns data) = Some p ->
  forallb (fun r => is_numeric (cell_at p r)) (rows data)
  = numeric_column name data.
Proof.
  intros Hp. unfold numeric_column, column_cells, value. rewrite Hp.
  induction (rows data) as [| r l IH]; simpl; [reflexivity |].
  rewrite IH. reflexivity.
Qed.

(** The frame the filter returns, position by position. *)
Lemma injured_map_eq (data : DataFrame) (t : Z) (p plat plon : nat) :
  find_col "injured_persons" (columns data) = Some p ->
  numeric_column "injured_persons" data = true ->
  find_col "latitude" (columns data) = Some plat ->
  find_col "longitude" (columns data) = Some plon ->
  injured_map data t
  = inr (mkDF ["latitude"; "longitude"]
           (map (fun r => (label r, [cell_at plat r; cell_at plon r]))
                (filter (fun r => notna (cell_at plat r)
                                  && (notna (cell_at plon r) && true))
                        (filter (fun r => cell_ge t (cell_at p r))
                                (rows data))))).
Proof.
  intros Hp Hnum Hlat Hlon.
  unfold injured_map, query_ge.
  rewrite Hp, (numeric_column_at _ _ _ Hp), Hnum. cbn [bind ret].
  unfold getitems, col_loc. cbn [mapM select_rows columns rows].
  rewrite Hlat, Hlon. cbn [bind ret].
  unfold dropna_any, select_rows. cbn [columns rows List.length seq].
  rewrite filter_map_swap. reflexivity.
Qed.

(** X2: raising the slider never adds a point to the map: for thresholds
    t <= t' the rows returned for t' are a sublist of the rows returned for
    t. *)
Theorem X2_injured_map_antitone (data : DataFrame) (t t' : Z)
  (out out' : DataFrame) :
  (t <= t')%Z ->
  injured_map data t = inr out ->
  injured_map data t' = inr out' ->
  sublist (rows out') (rows out).
Proof.
  intros Hle H H'.
  assert (Hcols : exists p plat plon,
             find_col "injured_persons" (columns data) = Some p
             /\ numeric_column "injured_persons" data = true
             /\ find_col "latitude" (columns data) = Some plat
             /\ find_col "longitude" (columns data) = Some plon).
  { unfold injured_map, query_ge in H.
    destruct (find_col "injured_persons" (columns data)) as [p |] eqn:Hp;
      [| discriminate].
    rewrite (numeric_column_at _ _ _ Hp) in H.
    destruct (numeric_column "injured_persons" data); [| discriminate].
    cbn [bind ret] in H. unfold getitems, col_loc in H.
    cbn [mapM select_rows columns] in H.
    destruct (find_col "latitude" (columns data)) as [plat |];
      [| discriminate].
    destruct (find_col "longitude" (columns data)) as [plon |];
      [| discriminate].
    exists p, plat, plon. auto. }
  destruct Hcols as (p & plat & plon & Hp & Hnum & Hlat & Hlon).
  rewrite (injured_map_eq data t p plat plon Hp Hnum Hlat Hlon) in H.
  rewrite (injured_map_eq data t' p plat plon Hp Hnum Hlat Hlon) in H'.
  injection H as <-. injection H' as <-. cbn [rows].
  apply sublist_map, sublist_filter_mono, sublist_filter_weaken.
  intros r. apply cell_ge_antitone. exact Hle.
Qed.

Lemma X2_injured_map_antitone_witness :
  sublist (rows sample_injured_2) (rows sample_injured_0).
Proof.
  apply (X2_injured_map_antitone sample_table 0 2
           sample_injured_0 sample_injured_2).
  - lia.
  - reflexivity.
  - reflexivity.
Defined.


(** ** More on the hour filter *)

Lemma frame_eta (df : DataFrame) : mkDF (columns df) (rows df) = df.
Proof. destruct df. reflexivity. Qed.

Lemma filter_all {A : Type} (f : A -> bool) (l : list A) :
  (forall x, In x l -> f x = true) -> filter f l = l.
Proof.
  induction l as [| x l IH]; simpl; intros H; [reflexivity |].
  rewrite (H x) by auto. f_equal. apply IH. auto.
Qed.

Lemma filter_none {A : Type} (f : A -> bool) (l : list A) :
  (forall x, In x l -> f x = false) -> filter f l = [].
Proof.
  induction l as [| x l IH]; simpl; intros H; [reflexivity |].
  rewrite (H x) by auto. apply IH. auto.
Qed.

(** The bucket of an hour is itself a table the hour filter accepts. *)
Lemma bucket_datetime_column (data : DataFrame) (hour : Z) (b : DataFrame) :
  data_by_hour data hour = inr b -> datetime_column DATE_TIME b.
Proof.
  intros H. destruct (data_by_hour_rows _ _ _ H) as [Hcols Hrows].
  unfold data_by_hour, series, col_loc in H.
  destruct (find_col DATE_TIME (columns data)) as [p |] eqn:Hp;
    [| discriminate].
  unfold datetime_column, series, col_loc. rewrite Hcols, Hp.
  eexists. split; [reflexivity |].
  apply forallb_forall. intros c Hc.
  apply in_map_iff in Hc as (r & <- & Hr).
  rewrite Hrows in Hr. apply filter_In in Hr as [_ Hr].
  unfold value in Hr. rewrite Hp in Hr.
  destruct (cell_at p r); try discriminate; reflexivity.
Qed.

(** X4: filtering the table of an hour again changes nothing when the hour
    is the same and leaves no row when it is another: the tables of two
    different hours share no row, and the filter is idempotent. *)
Theorem X4_data_by_hour_twice (data : DataFrame) (h h' : Z)
  (b : DataFrame) :
  data_by_hour data h = inr b ->
  data_by_hour b h'
  = inr (if (h' =? h)%Z then b else mkDF (columns b) []).
Proof.
  intros H. pose proof (bucket_datetime_column _ _ _ H) as Hdt.
  destruct (data_by_hour_rows _ _ _ H) as [Hcols Hrows].
  destruct (data_by_hour_defined b h' Hdt) as (b' & Hb').
  rewrite Hb'. f_equal.
  destruct (data_by_hour_rows _ _ _ Hb') as [Hcols' Hrows'].
  rewrite <- (frame_eta b'), Hcols', Hrows'.
  assert (Hhour : forall r, In r (rows b) ->
            in_hour h' (value DATE_TIME b r) = (h' =? h)%Z).
  { intros r Hr. rewrite Hrows in Hr. apply filter_In in Hr as [_ Hr].
    unfold value in *. rewrite Hcols.
    destruct (find_col DATE_TIME (columns data)); [| discriminate].
    destruct (cell_at n r) as [| | | ns]; try discriminate.
    simpl in *. apply Z.eqb_eq in Hr. subst h. apply Z.eqb_sym. }
  destruct (h' =? h)%Z.
  - rewrite filter_all by exact Hhour. apply frame_eta.
  - rewrite filter_none by exact Hhour. reflexivity.
Qed.

Lemma X4_data_by_hour_twice_witness :
  exists b,
    data_by_hour sample_table 10 = inr b
    /\ data_by_hour b 10 = inr b
    /\ data_by_hour b 14 = inr (mkDF (columns b) []).
Proof.
  eexists. split; [reflexivity |]. split.
  - exact (X4_data_by_hour_twice sample_table 10 10 _ eq_refl).
  - exact (X4_data_by_hour_twice sample_table 10 14 _ eq_refl).
Defined.

(** X5: an hour outside 0..23 selects no row and raises nothing: no
    timestamp has such an hour. *)
Theorem X5_data_by_hour_out_of_range (data : DataFrame) (hour : Z)
  (b : DataFrame) :
  data_by_hour data hour = inr b ->
  ~ (0 <= hour <= 23)%Z ->
  rows b = [] /\ columns b = columns data.
Proof.
  intros H Hout. destruct (data_by_hour_rows _ _ _ H) as [Hcols Hrows].
  split; [| exact Hcols]. rewrite Hrows. apply filter_none.
  intros r _. destruct (value DATE_TIME data r) as [| | | ns];
    try reflexivity.
  simpl. apply Z.eqb_neq. intros E. apply Hout. rewrite <- E.
  apply hour_of_range.
Qed.

Lemma X5_data_by_hour_out_of_range_witness :
  exists b,
    data_by_hour sample_table 24 = inr b
    /\ rows b = [] /\ columns b = columns sample_table.
Proof.
  eexists. split; [reflexivity |].
  apply (X5_data_by_hour_out_of_range sample_table 24 _ eq_refl). lia.
Defined.

(** ** The bar chart of the minutes *)

(** The histogram of a table whose [date_time] column is a datetime
    column. *)
Lemma hist_eq (df : DataFrame) :
  datetime_column DATE_TIME df ->
  hist df
  = inr (map (fun j =>
                List.length
                  (filter (fun r => in_minute (Z.of_nat j)
                                      (value DATE_TIME df r))
                          (rows df)))
             (seq 0 60)).
Proof.
  intros (s & Hs & Hdt). unfold hist. rewrite Hs. cbn [bind].
  unfold dt_field. rewrite Hdt. cbn [bind ret].
  rewrite minute_histogram_bins. unfold ret. f_equal.
  apply map_ext. intros j.
  unfold series, col_loc, value in *.
  destruct (find_col DATE_TIME (columns df)) as [p |]; [| discriminate].
  injection Hs as <-. apply length_filter_map.
Qed.

(** X6: the chart of an hour is always built: the histogram has as many
    counts as [range(60)] has minutes, so the frame constructor does not
    raise.  The chart has the columns [minute] and [crashes] and 60 rows,
    labelled 0..59; row i holds i and the number of collisions of the hour
    at minute i. *)
Theorem X6_chart_data (data : DataFrame) (hour : Z) (filtered : DataFrame) :
  data_by_hour data hour = inr filtered ->
  chart_data filtered
  = inr (mkDF ["minute"; "crashes"]
           (map (fun i =>
                   (i, [num_of_nat i;
                        num_of_nat
                          (List.length
                             (filter (fun r => in_minute (Z.of_nat i)
                                                 (value DATE_TIME filtered r))
                                     (rows filtered)))]))
                (seq 0 60))).
Proof.
  intros H. pose proof (bucket_datetime_column _ _ _ H) as Hdt.
  unfold chart_data. rewrite (hist_eq filtered Hdt). cbn [bind].
  set (count := fun j => List.length
                           (filter (fun r => in_minute (Z.of_nat j)
                                               (value DATE_TIME filtered r))
                                   (rows filtered))).
  unfold frame_of_columns. cbn [forallb snd].
  unfold range. rewrite !length_map, length_seq. cbn [Nat.eqb andb].
  unfold ret. apply f_equal. apply (f_equal (mkDF ["minute"; "crashes"])).
  apply map_ext_in. intros i Hi. apply in_seq in Hi.
  cbn [map snd]. rewrite map_map.
  rewrite !nth_map_seq by lia. reflexivity.
Qed.

Lemma X6_chart_data_witness :
  exists filtered chart,
    data_by_hour sample_table 10 = inr filtered
    /\ chart_data filtered = inr chart
    /\ List.length (rows chart) = 60%nat
    /\ nth 15 (rows chart) (0%nat, []) = (15%nat, [Num 15; Num 1]).
Proof.
  eexists. eexists. split; [reflexivity |]. split.
  - exact (X6_chart_data sample_table 10 _ eq_refl).
  - split; reflexivity.
Defined.

(** ** The map view state *)








(** ** Grouping *)

Section GroupByFacts.

Context {K V : Type}.
Variable cmp : K -> K -> comparison.

Hypothesis cmp_refl : forall a, cmp a a = Eq.
Hypothesis cmp_antisym : forall a b, cmp b a = CompOpp (cmp a b).
Hypothesis cmp_eq_l : forall a b c, cmp a b = Eq -> cmp a c = cmp b c.
Hypothesis cmp_lt_trans :
  forall a b c, cmp a b = Lt -> cmp b c = Lt -> cmp a c = Lt.

Lemma members_snoc (k' k : K) (v : V) (kvs : list (K * V)) :
  members cmp k' (kvs ++ [(k, v)])
  = members cmp k' kvs ++ match cmp k k' with Eq => [v] | _ => [] end.
Proof.
  unfold members. rewrite filter_app, map_app. simpl.
  destruct (cmp k k'); reflexivity.
Qed.

Lemma members_none (k : K) (kvs : list (K * V)) :
  (forall kv, In kv kvs -> cmp (fst kv) k <> Eq) -> members cmp k kvs = [].
Proof.
  unfold members. induction kvs as [| kv kvs IH]; simpl; intros H;
    [reflexivity |].
  destruct (cmp (fst kv) k) eqn:E.
  - exfalso. apply (H kv); auto.
  - apply IH. intros kv' Hkv'. apply H. auto.
  - apply IH. intros kv' Hkv'. apply H. auto.
Qed.

(** Where a group comes from after one more row. *)
Lemma group_insert_In (k : K) (v : V) (g : list (K * list V))
  (k' : K) (vs' : list V) :
  StronglySorted (key_lt cmp) g ->
  In (k', vs') (group_insert cmp k v g) ->
  (cmp k k' <> Eq /\ In (k', vs') g)
  \/ (cmp k k' = Eq /\ exists vs0, vs' = vs0 ++ [v] /\ In (k', vs0) g)
  \/ (k' = k /\ vs' = [v] /\ Forall (fun e => cmp k (fst e) <> Eq) g).
Proof.
  induction g as [| [k0 vs0] g IH]; intros Hs Hin.
  - destruct Hin as [[= <- <-] | []]. right. right. auto.
  - inversion Hs as [| e l Hs' Hall]; subst.
    assert (Hbelow : cmp k k0 = Lt \/ cmp k k0 = Eq ->
              Forall (fun e => cmp k (fst e) <> Eq) g).
    { intros Hk. apply Forall_forall. intros e He.
      rewrite Forall_forall in Hall. specialize (Hall e He).
      unfold key_lt in Hall. simpl in Hall.
      destruct Hk as [Hk | Hk].
      - rewrite (cmp_lt_trans _ _ _ Hk Hall). discriminate.
      - rewrite (cmp_eq_l _ _ _ Hk), Hall. discriminate. }
    cbn [group_insert] in Hin. destruct (cmp k k0) eqn:Hk.
    + destruct Hin as [[= <- <-] | Hin].
      * right. left. split; [exact Hk |]. exists vs0. simpl. auto.
      * left. split; [| simpl; auto].
        assert (Hb := Hbelow (or_intror eq_refl)).
        rewrite Forall_forall in Hb. apply (Hb _ Hin).
    + destruct Hin as [[= <- <-] | Hin].
      * right. right. split; [reflexivity |]. split; [reflexivity |].
        constructor; [simpl; rewrite Hk; discriminate |].
        apply Hbelow. auto.
      * left. split; [| exact Hin].
        destruct Hin as [[= <- <-] | Hin]; [rewrite Hk; discriminate |].
        assert (Hb := Hbelow (or_introl eq_refl)).
        rewrite Forall_forall in Hb. apply (Hb _ Hin).
    + destruct Hin as [[= <- <-] | Hin].
      * left. split; [rewrite Hk; discriminate | simpl; auto].
      * destruct (IH Hs' Hin) as [[Hne Hi] | [[He (vs1 & -> & Hi)] | H3]].
        -- left. simpl. auto.
        -- right. left. split; [exact He |]. exists vs1. simpl. auto.
        -- destruct H3 as (-> & -> & Hnone). right. right.
           split; [reflexivity |]. split; [reflexivity |].
           constructor; [simpl; rewrite Hk; discriminate | exact Hnone].
Qed.

Lemma group_insert_keys (k : K) (v : V) (g : list (K * list V))
  (e : K * list V) :
  In e (group_insert cmp k v g) ->
  fst e = k \/ exists e', In e' g /\ fst e' = fst e.
Proof.
  induction g as [| [k0 vs0] g IH]; cbn [group_insert]; intros Hin.
  - destruct Hin as [<- | []]. auto.
  - destruct (cmp k k0).
    + destruct Hin as [<- | Hin].
      * right. exists (k0, vs0). simpl. auto.
      * right. exists e. simpl. auto.
    + destruct Hin as [<- | Hin]; [auto |].
      right. exists e. auto.
    + destruct Hin as [<- | Hin].
      * right. exists (k0, vs0). simpl. auto.
      * destruct (IH Hin) as [H | (e' & He' & Hk)]; [auto |].
        right. exists e'. simpl. auto.
Qed.

Lemma group_insert_sorted (k : K) (v : V) (g : list (K * list V)) :
  StronglySorted (key_lt cmp) g ->
  StronglySorted (key_lt cmp) (group_insert cmp k v g).
Proof.
  induction g as [| [k0 vs0] g IH]; cbn [group_insert]; intros Hs.
  - repeat constructor.
  - inversion Hs as [| e l Hs' Hall]; subst.
    destruct (cmp k k0) eqn:Hk.
    + constructor; assumption.
    + constructor; [exact Hs |].
      constructor; [exact Hk |].
      eapply Forall_impl; [| exact Hall].
      intros e He. unfold key_lt in *. simpl in *.
      eapply cmp_lt_trans; eauto.
    + constructor; [apply IH; exact Hs' |].
      apply Forall_forall. intros e He. unfold key_lt. simpl.
      destruct (group_insert_keys _ _ _ _ He) as [-> | (e' & He' & <-)].
      * rewrite cmp_antisym, Hk. reflexivity.
      * rewrite Forall_forall in Hall. apply (Hall e' He').
Qed.

Lemma group_insert_cover (k : K) (v : V) (g : list (K * list V)) (u : K) :
  (cmp u k = Eq \/ exists k' vs, In (k', vs) g /\ cmp u k' = Eq) ->
  exists k' vs, In (k', vs) (group_insert cmp k v g) /\ cmp u k' = Eq.
Proof.
  induction g as [| [k0 vs0] g IH]; cbn [group_insert]; intros H.
  - destruct H as [Hu | (k' & vs & [] & _)].
    exists k, [v]. simpl. auto.
  - destruct (cmp k k0) eqn:Hk.
    + destruct H as [Hu | (k' & vs & [[= <- <-] | Hin] & Hu)].
      * exists k0, (vs0 ++ [v]). split; [simpl; auto |].
        rewrite (cmp_eq_l _ _ _ Hu). exact Hk.
      * exists k0, (vs0 ++ [v]). simpl. auto.
      * exists k', vs. simpl. auto.
    + destruct H as [Hu | (k' & vs & Hin & Hu)].
      * exists k, [v]. simpl. auto.
      * exists k', vs. split; [right; exact Hin | exact Hu].
    + destruct H as [Hu | (k' & vs & [[= <- <-] | Hin] & Hu)].
      * destruct IH as (k' & vs & Hin & Hu'); [auto |].
        exists k', vs. simpl. auto.
      * exists k0, vs0. simpl. auto.
      * destruct IH as (k2 & vs2 & Hin2 & Hu2); [eauto |].
        exists k2, vs2. simpl. auto.
Qed.

Lemma group_insert_groups_of (k : K) (v : V) (kvs : list (K * V))
  (g : list (K * list V)) :
  groups_of cmp kvs g ->
  groups_of cmp (kvs ++ [(k, v)]) (group_insert cmp k v g).
Proof.
  intros (Hs & Hgroups & Hcover). split; [| split].
  - apply group_insert_sorted. exact Hs.
  - intros k' vs' Hin. rewrite members_snoc.
    destruct (group_insert_In k v g k' vs' Hs Hin)
      as [[Hne Hi] | [[He (vs0 & -> & Hi)] | (-> & -> & Hnone)]].
    + destruct (Hgroups _ _ Hi) as (-> & Hnil & (v0 & Hv0)).
      split; [| split].
      * destruct (cmp k k'); [contradiction | |];
          rewrite app_nil_r; reflexivity.
      * exact Hnil.
      * exists v0. apply in_or_app. auto.
    + destruct (Hgroups _ _ Hi) as (-> & Hnil & (v0 & Hv0)).
      rewrite He. split; [reflexivity |]. split.
      * intros E. apply app_eq_nil in E as [_ E]. discriminate.
      * exists v0. apply in_or_app. auto.
    + rewrite cmp_refl. split; [| split].
      * rewrite members_none; [reflexivity |].
        intros kv Hkv E. destruct (Hcover kv Hkv) as (k2 & vs2 & Hin2 & E2).
        rewrite Forall_forall in Hnone. apply (Hnone _ Hin2). simpl.
        rewrite <- (cmp_eq_l _ _ _ E). exact E2.
      * discriminate.
      * exists v. apply in_or_app. simpl. auto.
  - intros kv Hkv. apply group_insert_cover.
    apply in_app_or in Hkv as [Hkv | [<- | []]]; [right; auto | left].
    simpl. apply cmp_refl.
Qed.

Lemma group_rows_groups_of (kvs : list (K * V)) :
  groups_of cmp kvs (group_rows cmp kvs).
Proof.
  unfold group_rows.
  assert (H : forall seen g,
             groups_of cmp seen g ->
             groups_of cmp (seen ++ kvs)
               (fold_left (fun g kv => group_insert cmp (fst kv) (snd kv) g)
                          kvs g)).
  { induction kvs as [| [k v] kvs IH]; simpl; intros seen g Hinv.
    - rewrite app_nil_r. exact Hinv.
    - replace (seen ++ (k, v) :: kvs) with ((seen ++ [(k, v)]) ++ kvs)
        by (rewrite <- app_assoc; reflexivity).
      apply IH. apply group_insert_groups_of. exact Hinv. }
  apply (H [] []). split; [| split].
  - constructor.
  - intros k vs [].
  - intros kv [].
Qed.

End GroupByFacts.

(** Every row with a key is in one group: the sizes of the groups add up
    to the number of rows. *)
Lemma group_insert_sizes {K V : Type} (cmp : K -> K -> comparison)
  (k : K) (v : V) (g : list (K * list V)) :
  total (map (fun e => List.length (snd e)) (group_insert cmp k v g))
  = S (total (map (fun e => List.length (snd e)) g)).
Proof.
  induction g as [| [k0 vs0] g IH]; cbn [group_insert]; [reflexivity |].
  destruct (cmp k k0); simpl.
  - rewrite length_app. simpl. lia.
  - reflexivity.
  - simpl in IH. rewrite IH. lia.
Qed.

Lemma group_rows_sizes {K V : Type} (cmp : K -> K -> comparison)
  (kvs : list (K * V)) :
  total (map (fun e => List.length (snd e)) (group_rows cmp kvs))
  = List.length kvs.
Proof.
  unfold group_rows.
  assert (H : forall g,
             total (map (fun e => List.length (snd e))
                        (fold_left
                           (fun g kv =>
                              group_insert cmp (fst kv) (snd kv) g)
                           kvs g))
             = (total (map (fun e => List.length (snd e)) g)
                + List.length kvs)%nat).
  { induction kvs as [| kv kvs IH]; simpl; intros g; [lia |].
    rewrite IH, group_insert_sizes. lia. }
  rewrite H. reflexivity.
Qed.

(** The order of the rationals meets what grouping asks of an order. *)
Lemma Qcompare_refl (a : Q) : Qcompare a a = Eq.
Proof. apply Qeq_alt. reflexivity. Qed.

Lemma Qcompare_antisym' (a b : Q) :
  Qcompare b a = CompOpp (Qcompare a b).
Proof. symmetry. apply Qcompare_antisym. Qed.

Lemma Qcompare_eq_l (a b c : Q) :
  Qcompare a b = Eq -> Qcompare a c = Qcompare b c.
Proof. intros H. apply Qeq_alt in H. rewrite H. reflexivity. Qed.

Lemma Qcompare_lt_trans (a b c : Q) :
  Qcompare a b = Lt -> Qcompare b c = Lt -> Qcompare a c = Lt.
Proof. rewrite <- !Qlt_alt. apply Qlt_trans. Qed.

Lemma Qcompare_inject_Z (a b : Z) :
  Qcompare (inject_Z a) (inject_Z b) = Eq <-> a = b.
Proof. rewrite <- Qeq_alt. apply inject_Z_injective. Qed.

(** ** Collisions per hour *)

(** The keys [hourly_collisions] groups by: the hour of every timestamp
    that is present. *)
Lemma hour_keys_cons (c : cell) (cells : list cell) :
  keyed (map (fun k => (k, tt))
             (float_values
                (map (fun c => match c with
                               | Stamp ns => Num (inject_Z (hour_of ns))
                               | _ => NaN
                               end) (c :: cells))))
  = match c with
    | Stamp ns => [(inject_Z (hour_of ns), tt)]
    | _ => []
    end
    ++ keyed (map (fun k => (k, tt))
                  (float_values
                     (map (fun c => match c with
                                    | Stamp ns =>
                                        Num (inject_Z (hour_of ns))
                                    | _ => NaN
                                    end) cells))).
Proof. destruct c; reflexivity. Qed.

Lemma hour_keys_facts (cells : list cell) :
  let kvs :=
    keyed (map (fun k => (k, tt))
               (float_values
                  (map (fun c => match c with
                                 | Stamp ns => Num (inject_Z (hour_of ns))
                                 | _ => NaN
                                 end) cells))) in
  (forall h, List.length (members Qcompare (inject_Z h) kvs)
             = List.length (filter (in_hour h) cells))
  /\ List.length kvs
     = List.length (filter (fun c => match c with
                                     | Stamp _ => true
                                     | _ => false
                                     end) cells)
  /\ (forall k v, In (k, v) kvs ->
        exists ns, In (Stamp ns) cells /\ k = inject_Z (hour_of ns))
  /\ (forall ns, In (Stamp ns) cells -> In (inject_Z (hour_of ns), tt) kvs).
Proof.
  induction cells as [| c cells (IHm & IHl & IHk & IHs)].
  - simpl. repeat split; try reflexivity.
    + intros k v [].
    + intros ns [].
  - cbv zeta. rewrite hour_keys_cons.
    repeat split.
    + intros h. unfold members in *. rewrite filter_app, map_app, length_app.
      rewrite IHm. destruct c as [| | | ns]; try reflexivity.
      cbn [filter in_hour app map List.length fst].
      destruct (Z.eqb_spec (hour_of ns) h) as [E | E].
      * apply Qcompare_inject_Z in E. rewrite E. reflexivity.
      * destruct (Qcompare (inject_Z (hour_of ns)) (inject_Z h)) eqn:Hc;
          try reflexivity.
        apply Qcompare_inject_Z in Hc. contradiction.
    + rewrite length_app, IHl. destruct c; reflexivity.
    + intros k v Hin. apply in_app_or in Hin as [Hin | Hin].
      * destruct c as [| | | ns]; try contradiction.
        destruct Hin as [[= <- <-] | []]. exists ns. simpl. auto.
      * destruct (IHk k v Hin) as (ns & Hns & ->). exists ns. simpl. auto.
    + intros ns [-> | Hin]; apply in_or_app.
      * left. simpl. auto.
      * right. apply IHs. exact Hin.
Qed.

(** X8: the series of collisions per hour.  Its hours come in strictly
    increasing order; each is an hour of 0..23 in which a collision
    happened, with the number of rows the hour filter returns for it, at
    least one: an hour without collision has no entry, the heat map no
    column for it.  Every hour with a collision has its entry, and the
    counts add up to the number of rows whose timestamp is present. *)
Theorem X8_hourly_collisions (data : DataFrame) (out : list (Q * nat)) :
  hourly_collisions data = inr out ->
  StronglySorted (fun a b => fst a < fst b) out
  /\ (forall k n, In (k, n) out ->
        exists h, (0 <= h <= 23)%Z /\ k = inject_Z h
                  /\ n = List.length (hour_bucket data h) /\ (1 <= n)%nat)
  /\ (forall h, hour_bucket data h <> [] -> exists n, In (inject_Z h, n) out)
  /\ total (map snd out)
     = List.length (filter (fun r => notna (value DATE_TIME data r))
                           (rows data)).
Proof.
  unfold hourly_collisions. intros H.
  assert (Hdt : datetime_column DATE_TIME data).
  { destruct (series DATE_TIME data) as [e | s] eqn:Hs; [discriminate |].
    cbn [bind] in H. unfold dt_field in H.
    destruct (forallb is_datetimelike s) eqn:Hd; [| discriminate].
    exists s. auto. }
  pose proof (fun h => hour_bucket_rows data h Hdt) as Hbucket.
  destruct Hdt as (s & Hs & Hd). rewrite Hs in H. cbn [bind] in H.
  unfold dt_field in H. rewrite Hd in H. cbn [bind ret] in H.
  injection H as <-.
  unfold series, col_loc in Hs.
  destruct (find_col DATE_TIME (columns data)) as [p |] eqn:Hp;
    [| discriminate].
  injection Hs as <-.
  assert (Hval : forall r, value DATE_TIME data r = cell_at p r).
  { intros r. unfold value. rewrite Hp. reflexivity. }
  destruct (hour_keys_facts (map (cell_at p) (rows data)))
    as (Hm & Hl & Hk & Hst).
  unfold groupby_size.
  set (kvs := keyed _) in *.
  destruct (group_rows_groups_of Qcompare Qcompare_refl Qcompare_antisym'
              Qcompare_eq_l Qcompare_lt_trans kvs)
    as (Hsorted & Hgroups & Hcover).
  assert (Hsize : forall h,
             List.length (members Qcompare (inject_Z h) kvs)
             = List.length (hour_bucket data h)).
  { intros h. rewrite Hm, Hbucket, length_filter_map.
    f_equal. apply filter_ext. intros r. rewrite Hval. reflexivity. }
  split; [| split; [| split]].
  - apply (proj2 (StronglySorted_map (fun a b : Q * nat => fst a < fst b)
                     (fun g : Q * list unit =>
                        (fst g, List.length (snd g))) _)).
    clear - Hsorted. induction Hsorted as [| e l Hl IH Hall];
      constructor; [exact IH |].
    eapply Forall_impl; [| exact Hall].
    intros e' He'. unfold key_lt in He'. simpl. apply Qlt_alt. exact He'.
  - intros k n Hin. apply in_map_iff in Hin as ([k' vs] & [= <- <-] & Hin).
    destruct (Hgroups _ _ Hin) as (Hvs & Hnil & (v & Hv)).
    destruct (Hk _ _ Hv) as (ns & _ & ->).
    exists (hour_of ns). split; [apply hour_of_range |].
    split; [reflexivity |]. cbn [snd]. rewrite Hvs at 1. rewrite Hsize.
    split; [reflexivity |].
    destruct vs; [contradiction | simpl; lia].
  - intros h Hne. rewrite Hbucket in Hne.
    destruct (filter _ (rows data)) as [| r l] eqn:Hf; [contradiction |].
    assert (Hr : In r (filter (fun r => in_hour h (value DATE_TIME data r))
                              (rows data))) by (rewrite Hf; simpl; auto).
    apply filter_In in Hr as [Hr Hh]. rewrite Hval in Hh.
    destruct (cell_at p r) as [| | | ns] eqn:Hc; try discriminate.
    simpl in Hh. apply Z.eqb_eq in Hh. subst h.
    assert (Hin : In (Stamp ns) (map (cell_at p) (rows data))).
    { rewrite <- Hc. apply in_map. exact Hr. }
    destruct (Hcover _ (Hst ns Hin)) as (k & vs & Hg & Hcmp).
    destruct (Hgroups _ _ Hg) as (_ & _ & (v & Hv)).
    destruct (Hk _ _ Hv) as (ns' & _ & ->).
    cbn [fst] in Hcmp. apply Qcompare_inject_Z in Hcmp. rewrite Hcmp.
    exists (List.length vs).
    apply in_map_iff. exists (inject_Z (hour_of ns'), vs). auto.
  - rewrite map_map. cbn [snd].
    rewrite (group_rows_sizes Qcompare kvs), Hl, length_filter_map.
    f_equal. apply filter_ext_in. intros r Hr. rewrite Hval.
    rewrite forallb_forall in Hd.
    specialize (Hd (cell_at p r) (in_map _ _ _ Hr)).
    destruct (cell_at p r); try discriminate; reflexivity.
Qed.

Lemma X8_hourly_collisions_witness :
  hourly_collisions sample_table
  = inr [(inject_Z 10, 2%nat); (inject_Z 14, 2%nat)]
  /\ (forall k n,
        In (k, n) [(inject_Z 10, 2%nat); (inject_Z 14, 2%nat)] ->
        exists h, (0 <= h <= 23)%Z /\ k = inject_Z h
                  /\ n = List.length (hour_bucket sample_table h)
                  /\ (1 <= n)%nat)
  /\ total (map snd [(inject_Z 10, 2%nat); (inject_Z 14, 2%nat)])
     = List.length (filter (fun r => notna (value DATE_TIME sample_table r))
                           (rows sample_table)).
Proof.
  split; [reflexivity |].
  destruct (X8_hourly_collisions sample_table
              [(inject_Z 10, 2%nat); (inject_Z 14, 2%nat)] eq_refl)
    as (_ & Hin & _ & Htotal).
  split; [exact Hin | exact Htotal].
Defined.

(** ** Severity by site *)













(** ** The ranking keeps the largest counts *)

Lemma StronglySorted_app_inv {A : Type} (R : A -> A -> Prop)
  (l1 l2 : list A) (a b : A) :
  StronglySorted R (l1 ++ l2) -> In a l1 -> In b l2 -> R a b.
Proof.
  induction l1 as [| x l1 IH]; simpl; intros Hs Ha Hb; [contradiction |].
  inversion Hs as [| y l Hl Hall]; subst.
  destruct Ha as [-> | Ha].
  - rewrite Forall_forall in Hall. apply Hall. apply in_or_app. auto.
  - apply IH; assumption.
Qed.

(** Of a sorted list cut after [n] elements, an element is kept, or the
    cut is full and every element kept comes before it in the order. *)
Lemma firstn_keeps_first {A : Type} (R : A -> A -> Prop) (n : nat)
  (l : list A) (b : A) :
  StronglySorted R l -> In b l ->
  In b (firstn n l)
  \/ (List.length (firstn n l) = n /\ Forall (fun a => R a b) (firstn n l)).
Proof.
  intros Hs Hb. rewrite <- (firstn_skipn n l) in Hs, Hb.
  apply in_app_or in Hb as [Hb | Hb]; [auto | right].
  split.
  - apply firstn_length_le.
    destruct (Nat.le_gt_cases n (List.length l)) as [H | H]; [exact H |].
    rewrite skipn_all2 in Hb by lia. contradiction.
  - apply Forall_forall. intros a Ha.
    eapply StronglySorted_app_inv; eauto.
Qed.

(** X10: the ranking of [top_streets] is made of rows of the table and
    keeps the largest counts.  Every row of the ranking is the label, the
    street and the count of a row of the table.  And a row of the table
    with its street present and a count of at least one is in the ranking,
    unless the ranking is full, with n rows, each with a count at least as
    large. *)
Theorem X10_top_streets_keeps_largest (n : nat) (col : string)
  (data out : DataFrame) :
  In col injury_columns ->
  top_streets n col data (inr out) ->
  (forall r', In r' (rows out) ->
     exists r, In r (rows data)
       /\ r' = (label r, [value "on_street_name" data r; value col data r]))
  /\ (forall r x,
        In r (rows data) ->
        notna (value "on_street_name" data r) = true ->
        value col data r = Num x -> 1 <= x ->
        In (label r, [value "on_street_name" data r; Num x]) (rows out)
        \/ (List.length (rows out) = n
            /\ Forall (fun r' => exists y, cell_at 1 r' = Num y /\ x <= y)
                      (rows out))).
Proof.
  intros Hcol H. pose proof (injury_column_not_street col Hcol) as Hne.
  destruct (top_streets_inv n col data out Hne H)
    as (sel & indexer & Hsel & [Hperm Hsorted] & ->).
  destruct (street_counts_inv _ _ _ Hsel)
    as (p & ps & Hp & Hps & Hcols & Hrows).
  rewrite length_map in Hperm.
  assert (Hvs : forall r, value "on_street_name" data r = cell_at ps r).
  { intros r. unfold value. rewrite Hps. reflexivity. }
  assert (Hvc : forall r, value col data r = cell_at p r).
  { intros r. unfold value. rewrite Hp. reflexivity. }
  set (F := rows (dropna_any (take indexer sel))).
  assert (HF : rows (head n (dropna_any (take indexer sel))) = firstn n F)
    by reflexivity.
  assert (HFsub : sublist F (rows (take indexer sel))).
  { unfold F. simpl. apply sublist_filter. }
  assert (HFsorted :
            StronglySorted
              (fun a b => desc_nan_last (cell_at 1 a) (cell_at 1 b)) F).
  { apply StronglySorted_map.
    apply StronglySorted_sublist
      with (l := map (cell_at 1) (rows (take indexer sel))).
    - apply sublist_map. exact HFsub.
    - rewrite take_keys. exact Hsorted. }
  rewrite HF. split.
  - intros r' Hr'.
    eapply sublist_In in Hr'; [| apply sublist_firstn].
    eapply sublist_In in Hr'; [| exact HFsub].
    apply take_rows_In in Hr'; [| exact Hperm].
    rewrite Hrows in Hr'. apply in_map_iff in Hr' as (r & <- & Hr).
    apply filter_In in Hr as [Hr _].
    exists r. rewrite Hvs, Hvc. auto.
  - intros r x Hr Hstreet Hx Hge. rewrite Hvs in *. rewrite Hvc in Hx.
    assert (HinF : In (label r, [cell_at ps r; Num x]) F).
    { unfold F. cbn [dropna_any select_rows rows]. apply filter_In. split.
      - cbn [take rows]. apply (indexed_In _ _ _ _ Hperm).
        rewrite Hrows, <- Hx.
        apply (in_map (fun r => (label r, [cell_at ps r; cell_at p r]))).
        apply filter_In. split; [exact Hr |].
        rewrite Hx. simpl. apply Qle_bool_iff. exact Hge.
      - cbn [take columns]. rewrite Hcols. simpl.
        unfold cell_at at 1. simpl. rewrite Hstreet. reflexivity. }
    destruct (firstn_keeps_first _ n F _ HFsorted HinF) as [Hin | [Hlen Hall]].
    + left. exact Hin.
    + right. split; [exact Hlen |].
      eapply Forall_impl; [| exact Hall].
      intros r' Hd. change (cell_at 1 (label r, [cell_at ps r; Num x]))
        with (Num x) in Hd.
      cbv beta in Hd.
      destruct (cell_at 1 r') as [| y | |]; simpl in Hd; try contradiction.
      exists y. auto.
Qed.

Lemma X10_top_streets_keeps_largest_witness :
  (forall r', In r' (rows motorists_ranking) ->
     exists r, In r (rows streets_table)
       /\ r' = (label r, [value "on_street_name" streets_table r;
                          value "number_of_motorist_injured" streets_table
                                r]))
  /\ (forall r x,
        In r (rows streets_table) ->
        notna (value "on_street_name" streets_table r) = true ->
        value "number_of_motorist_injured" streets_table r = Num x ->
        1 <= x ->
        In (label r, [value "on_street_name" streets_table r; Num x])
           (rows motorists_ranking)
        \/ (List.length (rows motorists_ranking) = 5%nat
            /\ Forall (fun r' => exists y, cell_at 1 r' = Num y /\ x <= y)
                      (rows motorists_ranking))).
Proof.
  apply (X10_top_streets_keeps_largest 5 "number_of_motorist_injured"
           streets_table motorists_ranking).
  - simpl. auto.
  - exact motorists_ranking_run.
Defined.

(** ** More on value counts *)

Lemma indexed_Permutation {A : Type} (l : list A) (d : A)
  (indexer : list nat) :
  Permutation indexer (seq 0 (List.length l)) ->
  Permutation (map (fun i => nth i l d) indexer) l.
Proof.
  intros Hperm.
  etransitivity; [apply Permutation_map; exact Hperm |].
  rewrite map_nth_seq. reflexivity.
Qed.

Lemma ForallOrdPairs_perm {A : Type} (R : A -> A -> Prop) (l l' : list A) :
  (forall a b, R a b -> R b a) ->
  Permutation l l' -> ForallOrdPairs R l -> ForallOrdPairs R l'.
Proof.
  intros Hsym. induction 1 as [| x l l' Hp IH | x y l | l l' l'' H1 IH1 H2 IH2];
    intros H.
  - exact H.
  - inversion H as [| a k Hall Hrest]; subst. constructor.
    + eapply Permutation_Forall; eauto.
    + apply IH. exact Hrest.
  - inversion H as [| a k Hall Hrest]; subst.
    inversion Hrest as [| a' k' Hall' Hrest']; subst.
    inversion Hall as [| a'' k'' Hyx Hall'']; subst.
    constructor; [constructor; [apply Hsym; exact Hyx | exact Hall'] |].
    constructor; assumption.
  - auto.
Qed.

Lemma ForallOrdPairs_sublist {A : Type} (R : A -> A -> Prop)
  (k l : list A) :
  sublist k l -> ForallOrdPairs R l -> ForallOrdPairs R k.
Proof.
  induction 1 as [| x k l Hs IH | x k l Hs IH]; intros H.
  - constructor.
  - inversion H; subst. auto.
  - inversion H as [| a m Hall Hrest]; subst. constructor; [| auto].
    eapply sublist_Forall; eauto.
Qed.

Lemma tally_total (v : cell) (t : list (cell * nat)) :
  total (map snd (tally v t)) = S (total (map snd t)).
Proof.
  induction t as [| [w n] t IH]; simpl; [reflexivity |].
  destruct (cell_eqb w v); simpl; [reflexivity |]. rewrite IH. lia.
Qed.

Lemma count_table_total (vals : list cell) :
  total (map snd (count_table vals)) = List.length vals.
Proof.
  unfold count_table.
  assert (H : forall t,
             total (map snd (fold_left (fun t v => tally v t) vals t))
             = (total (map snd t) + List.length vals)%nat).
  { induction vals as [| v vals IH]; simpl; intros t; [lia |].
    rewrite IH, tally_total. lia. }
  rewrite H. reflexivity.
Qed.

Lemma total_perm (l l' : list nat) :
  Permutation l l' -> total l = total l'.
Proof.
  induction 1; simpl; try lia.
Qed.

Lemma count_in_eqb (w v : cell) (vals : list cell) :
  cell_eqb w v = true -> count_in w vals = count_in v vals.
Proof.
  intros H. unfold count_in. f_equal. apply filter_ext. intros x.
  destruct (cell_eqb v x) eqn:E.
  - eapply cell_eqb_trans; eauto.
  - destruct (cell_eqb w x) eqn:E'; [| reflexivity].
    rewrite cell_eqb_sym in H. rewrite (cell_eqb_trans _ _ _ H E') in E.
    discriminate.
Qed.

(** What [value_counts] returns: the table of counts, rearranged so that
    the counts do not increase. *)
Lemma value_counts_facts (s : list cell) (vc : list (cell * nat)) :
  value_counts s vc ->
  Permutation vc (count_table (filter notna s))
  /\ StronglySorted (fun a b => (snd b <= snd a)%nat) vc.
Proof.
  intros (indexer & [Hperm Hsorted] & ->).
  rewrite length_map in Hperm.
  set (t := count_table (filter notna s)) in *.
  split; [apply indexed_Permutation; exact Hperm |].
  apply (proj2 (StronglySorted_map
                  (fun a b : cell * nat => (snd b <= snd a)%nat)
                  (fun i => nth i t (NaN, 0%nat)) indexer)).
  set (key := fun e : cell * nat => Num (inject_Z (Z.of_nat (snd e)))) in *.
  assert (Hkeys : map (fun i => nth i (map key t) NaN) indexer
                  = map (fun i => key (nth i t (NaN, 0%nat))) indexer).
  { apply map_ext_in. intros i Hi.
    eapply Permutation_in in Hi; [| exact Hperm]. apply in_seq in Hi.
    rewrite (nth_indep _ NaN (key (NaN, 0%nat)))
      by (rewrite length_map; lia).
    apply map_nth. }
  rewrite Hkeys in Hsorted.
  apply (proj1 (StronglySorted_map desc_nan_last
                  (fun i => key (nth i t (NaN, 0%nat))) indexer))
    in Hsorted.
  clear - Hsorted. induction Hsorted as [| e l Hl IH Hall];
    constructor; [exact IH |].
  eapply Forall_impl; [| exact Hall].
  intros e' He'. unfold key in He'. simpl in He'.
  rewrite <- Zle_Qle in He'. lia.
Qed.

Lemma cell_eqb_congr (w v x : cell) :
  cell_eqb w v = true -> cell_eqb w x = cell_eqb v x.
Proof.
  intros H. destruct (cell_eqb v x) eqn:E.
  - eapply cell_eqb_trans; eauto.
  - destruct (cell_eqb w x) eqn:E'; [| reflexivity].
    rewrite cell_eqb_sym in H. rewrite (cell_eqb_trans _ _ _ H E') in E.
    discriminate.
Qed.

Lemma occurrences_eqb (w v : cell) (col : string) (data : DataFrame) :
  cell_eqb w v = true -> occurrences w col data = occurrences v col data.
Proof.
  intros H. unfold occurrences. f_equal. apply filter_ext. intros r.
  apply cell_eqb_congr. exact H.
Qed.

Lemma count_in_pos (w : cell) (vals : list cell) :
  In w vals -> (1 <= count_in w vals)%nat.
Proof.
  unfold count_in. induction vals as [| v vals IH]; [intros [] |].
  intros [-> | Hin]; simpl.
  - rewrite cell_eqb_refl. simpl. lia.
  - destruct (cell_eqb w v); simpl; [lia | auto].
Qed.

Lemma distinct_keys_sym (a b : cell * nat) :
  cell_eqb (fst a) (fst b) = false -> cell_eqb (fst b) (fst a) = false.
Proof. rewrite cell_eqb_sym. trivial. Qed.

(** ** The ranking of contributing factors and of vehicle types
    (main.py, lines 128 and 144) *)

(** X11: The ranking [data[[c1, c2]].stack().value_counts().head(n)], which
    the script computes for the contributing factors (n = 20) and for the
    vehicle types (n = 10): it has at most [n] entries; the counts do not
    increase down the list; no two entries have the same value; every count
    is at least 1; and a value that is present in a cell of the two columns
    either has its entry in the ranking or occurs no more often than any
    entry of the ranking, which is then full. *)
Theorem X11_top_values_ranking (n : nat) (c1 c2 : string)
  (data : DataFrame) (out : list (cell * nat)) :
  top_values n [c1; c2] data (inr out) ->
  (List.length out <= n)%nat
  /\ StronglySorted (fun a b => (snd b <= snd a)%nat) out
  /\ ForallOrdPairs (fun a b => cell_eqb (fst a) (fst b) = false) out
  /\ (forall w k, In (w, k) out -> (1 <= k)%nat)
  /\ (forall r v, In r (rows data) ->
        v = value c1 data r \/ v = value c2 data r ->
        notna v = true ->
        (exists w k, In (w, k) out /\ cell_eqb w v = true)
        \/ (List.length out = n
            /\ forall w k, In (w, k) out ->
                 (occurrences v c1 data + occurrences v c2 data <= k)%nat)).
Proof.
  intros H. apply top_values_cell_wise in H.
  destruct H as (sel & vc & _ & _ & Hvc & -> & Hcount & Hcover).
  destruct (value_counts_facts _ _ Hvc) as [Hperm Hsorted].
  set (vals := filter notna (map snd (stack sel))) in *.
  destruct (count_table_counts_of vals) as (Hcounts & Hdistinct & _).
  split; [apply firstn_le_length |].
  split; [eapply StronglySorted_sublist; [apply sublist_firstn | exact Hsorted] |].
  split.
  { eapply ForallOrdPairs_sublist; [apply sublist_firstn |].
    eapply ForallOrdPairs_perm; [exact distinct_keys_sym | | exact Hdistinct].
    symmetry. exact Hperm. }
  split.
  { intros w k Hwk.
    apply (sublist_In _ _ _ (sublist_firstn n vc)) in Hwk.
    eapply Permutation_in in Hwk; [| exact Hperm].
    destruct (Hcounts _ _ Hwk) as [Hw ->]. apply count_in_pos. exact Hw. }
  intros r v Hr Hv Hna.
  destruct (Hcover r v Hr Hv Hna) as (w & k & Hwk & Hwv).
  destruct (firstn_keeps_first _ n vc (w, k) Hsorted Hwk) as [Hin | [Hlen Hall]].
  - left. exists w, k. split; assumption.
  - right. split; [exact Hlen |]. intros w' k' Hw'.
    rewrite Forall_forall in Hall. specialize (Hall _ Hw'). simpl in Hall.
    destruct (Hcount _ _ Hwk) as [_ Hk].
    rewrite <- (occurrences_eqb w v c1 data Hwv).
    rewrite <- (occurrences_eqb w v c2 data Hwv). lia.
Qed.

Lemma X11_top_values_ranking_witness :
  (List.length [(Str "Unspecified", 4%nat); (Str "Driver Inattention", 2%nat)]
   <= 20)%nat.
Proof.
  exact (proj1 (X11_top_values_ranking 20
                  "contributing_factor_vehicle_1"
                  "contributing_factor_vehicle_2"
                  factors_table _ factors_table_run)).
Defined.

(** ** Collisions by borough (main.py, line 103) *)

Lemma series_inv (name : string) (df : DataFrame) (s : list cell) :
  series name df = inr s ->
  In name (columns df) /\ s = column_cells name df.
Proof.
  unfold series, col_loc, column_cells, value.
  destruct (find_col name (columns df)) as [p |] eqn:Hp; [| discriminate].
  intros [= <-]. split; [| reflexivity].
  destruct (in_dec string_dec name (columns df)) as [Hin | Hnot];
    [exact Hin |].
  rewrite (proj2 (find_col_None _ _) Hnot) in Hp. discriminate.
Qed.

Lemma count_in_present (w : cell) (s : list cell) :
  notna w = true -> count_in w (filter notna s) = count_in w s.
Proof.
  intros Hw. unfold count_in. induction s as [| v s IH]; [reflexivity |].
  simpl. destruct (notna v) eqn:Hv; simpl.
  - destruct (cell_eqb w v); simpl; rewrite IH; reflexivity.
  - rewrite IH. destruct v, w; try discriminate; reflexivity.
Qed.

(** X12: The counts by borough, [data['borough'].value_counts()]: when the
    expression returns a table, the counts add up to the number of
    collisions that have a borough; they do not increase down the table; no
    two entries have the same borough; every entry is a borough that is
    present, with the number of collisions in it, at least 1; every
    collision with a borough has its entry.  The only exception the
    expression raises is the KeyError of a table without the column. *)
Theorem X12_borough_collisions (data : DataFrame) :
  (forall out, borough_collisions data (inr out) ->
     total (map snd out)
     = List.length (filter (fun r => notna (value "borough" data r))
                           (rows data))
     /\ StronglySorted (fun a b => (snd b <= snd a)%nat) out
     /\ ForallOrdPairs (fun a b => cell_eqb (fst a) (fst b) = false) out
     /\ (forall w k, In (w, k) out ->
           notna w = true /\ (1 <= k)%nat
           /\ k = occurrences w "borough" data)
     /\ (forall r, In r (rows data) ->
           notna (value "borough" data r) = true ->
           exists w k, In (w, k) out
                       /\ cell_eqb w (value "borough" data r) = true))
  /\ (forall e, borough_collisions data (inl e) <->
        e = KeyError "borough" /\ ~ In "borough" (columns data)).
Proof.
  split.
  - intros out H. unfold borough_collisions in H.
    destruct (series "borough" data) as [e | s] eqn:Hs; [discriminate |].
    destruct H as (vc & Hvc & [= ->]).
    apply series_inv in Hs as [_ ->].
    destruct (value_counts_facts _ _ Hvc) as [Hperm Hsorted].
    set (vals := filter notna (column_cells "borough" data)) in *.
    destruct (count_table_counts_of vals) as (Hcounts & Hdistinct & Hcover).
    split.
    { rewrite (total_perm _ _ (Permutation_map snd Hperm)).
      rewrite count_table_total. unfold vals, column_cells.
      apply length_filter_map. }
    split; [exact Hsorted |].
    split.
    { eapply ForallOrdPairs_perm; [exact distinct_keys_sym | | exact Hdistinct].
      symmetry. exact Hperm. }
    split.
    + intros w k Hwk. eapply Permutation_in in Hwk; [| exact Hperm].
      destruct (Hcounts _ _ Hwk) as [Hw ->].
      assert (Hna : notna w = true).
      { apply filter_In in Hw as [_ Hw]. exact Hw. }
      split; [exact Hna |]. split; [apply count_in_pos; exact Hw |].
      unfold vals. rewrite (count_in_present _ _ Hna).
      unfold count_in, occurrences, column_cells. apply length_filter_map.
    + intros r Hr Hna.
      destruct (Hcover (value "borough" data r)) as (w & k & Hwk & Hwv).
      { apply filter_In. split; [| exact Hna].
        unfold column_cells. apply in_map. exact Hr. }
      exists w, k. split; [| exact Hwv].
      eapply Permutation_in; [symmetry; exact Hperm | exact Hwk].
  - intros e. unfold borough_collisions, series, col_loc.
    destruct (in_dec string_dec "borough" (columns data)) as [Hin | Hnot].
    + destruct (find_col_In _ _ Hin) as (p & ->). cbn [bind ret].
      split; [intros (vc & _ & Hout); discriminate | tauto].
    + rewrite (proj2 (find_col_None _ _) Hnot). cbn [bind raise].
      split; [intros [= <-]; tauto | intros [-> _]; reflexivity].
Qed.

Lemma borough_table_run :
  borough_collisions borough_table
    (inr [(Str "BROOKLYN", 2%nat); (Str "QUEENS", 1%nat)]).
Proof.
  unfold borough_collisions.
  replace (series "borough" borough_table)
    with (@inr exn (list cell)
            [Str "QUEENS"; Str "BROOKLYN"; NaN; Str "BROOKLYN"])
    by reflexivity.
  exists [(Str "BROOKLYN", 2%nat); (Str "QUEENS", 1%nat)].
  split; [| reflexivity].
  exists [1%nat; 0%nat]. split; [| reflexivity].
  split; [apply perm_swap | keys_in_order].
Qed.

Lemma X12_borough_collisions_witness :
  total (map snd [(Str "BROOKLYN", 2%nat); (Str "QUEENS", 1%nat)])
  = List.length (filter (fun r => notna (value "borough" borough_table r))
                        (rows borough_table)).
Proof.
  exact (proj1 (proj1 (X12_borough_collisions borough_table) _
                  borough_table_run)).
Defined.

(** ** The entries of the correlation matrix (main.py, lines 135-136) *)








(** ** From the loaded table to the maps (main.py, lines 21, 30 and 51) *)

Lemma load_data_inv (to_datetime : cell -> cell -> cell)
  (raw data : DataFrame) :
  load_data to_datetime raw = inr data ->
  In "crash_date" (columns raw) /\ In "crash_time" (columns raw)
  /\ In "latitude" (columns raw) /\ In "longitude" (columns raw).
Proof.
  intros H.
  pose proof (find_col_merged "latitude" (columns raw) eq_refl
                ltac:(discriminate)) as Hlat.
  pose proof (find_col_merged "longitude" (columns raw) eq_refl
                ltac:(discriminate)) as Hlon.
  pose proof (find_col_None "crash_date" (columns raw)) as Hnd.
  pose proof (find_col_None "crash_time" (columns raw)) as Hnt.
  unfold load_data, read_csv_parse_dates in H.
  destruct (find_col "crash_date" (columns raw)) as [pd |];
    [| discriminate].
  destruct (find_col "crash_time" (columns raw)) as [pt |];
    [| discriminate].
  cbn [bind ret] in H. unfold dropna_subset, col_loc in H.
  cbn [mapM columns] in H.
  destruct (find_col "latitude" _) as [plat |]; [| discriminate].
  destruct (find_col "longitude" _) as [plon |]; [| discriminate].
  split.
  { destruct (in_dec string_dec "crash_date" (columns raw)) as [Hin | Hin];
      [exact Hin | apply Hnd in Hin; discriminate]. }
  split.
  { destruct (in_dec string_dec "crash_time" (columns raw)) as [Hin | Hin];
      [exact Hin | apply Hnt in Hin; discriminate]. }
  split; [apply Hlat | apply Hlon]; eauto.
Qed.

(** The loaded table has its three map columns, and both coordinates in
    every row. *)
Lemma loaded_coordinates (to_datetime : cell -> cell -> cell)
  (raw data : DataFrame) :
  NoDup (map lower (columns raw)) ->
  load_data to_datetime raw = inr data ->
  find_col DATE_TIME (columns data) = Some 0%nat
  /\ In "latitude" (columns data) /\ In "longitude" (columns data)
  /\ Forall (fun r => has_coordinates data r = true) (rows data).
Proof.
  intros Hnd H.
  destruct (load_data_inv _ _ _ H) as (Hd & Ht & Hlat & Hlon).
  destruct (load_data_frame to_datetime raw Hd Ht Hlat Hlon)
    as (pd & pt & Hpd & Hpt & Hload).
  rewrite Hload in H. injection H as <-. clear Hload.
  set (merge := fun r : row =>
                  (label r,
                   to_datetime (cell_at pd r) (cell_at pt r)
                     :: other_cells (columns raw) (snd r))).
  set (others := map canonical (filter not_date_col (columns raw))).
  assert (Hcoord : forall n, In n (columns raw) -> lower n = n ->
             n <> DATE_TIME -> n <> "crash_date_crash_time" ->
             not_date_col n = true ->
             forall r, value n (mkDF (DATE_TIME :: others) (map merge
                         (filter (has_coordinates raw) (rows raw))))
                         (merge r)
                       = value n raw r).
  { intros n Hn Hlow Hne Hne' Hkeep r. unfold value. cbn [columns].
    rewrite find_col_cons.
    destruct (String.eqb_spec DATE_TIME n) as [E | _];
      [exfalso; auto |].
    unfold others.
    rewrite (find_col_rename canonical n).
    - destruct (find_col_In _ _ Hn) as (p & Hp). rewrite Hp.
      destruct (find_col_other_cells n (columns raw) (snd r) p Hkeep Hp)
        as (p' & Hp' & Hv).
      rewrite Hp'. exact Hv.
    - unfold canonical. rewrite Hlow.
      destruct (String.eqb_spec n "crash_date_crash_time") as [E | _];
        [contradiction | reflexivity].
    - intros c Hc Hcan. apply filter_In in Hc as [Hc _].
      apply (canonical_inj (columns raw)); assumption. }
  assert (Hin : forall n, In n (columns raw) -> not_date_col n = true ->
             canonical n = n -> In n (DATE_TIME :: others)).
  { intros n Hn Hkeep Hcan. right. unfold others.
    rewrite <- Hcan. apply in_map. apply filter_In. auto. }
  cbn [columns rows].
  split; [reflexivity |].
  split; [apply Hin; auto |]. split; [apply Hin; auto |].
  apply Forall_forall. intros r' Hr'.
  apply in_map_iff in Hr' as (r & <- & Hr).
  apply filter_In in Hr as [_ Hr].
  unfold has_coordinates in *. fold merge.
  rewrite (Hcoord "latitude" Hlat eq_refl ltac:(discriminate)
             ltac:(discriminate) eq_refl).
  rewrite (Hcoord "longitude" Hlon eq_refl ltac:(discriminate)
             ltac:(discriminate) eq_refl).
  exact Hr.
Qed.

(** X14: On the table [load_data] returns (from a file with no two column
    names equal up to case), the frame handed to [st.map] holds the
    coordinates of exactly the collisions with at least [injured_people]
    injured, in table order: the final [dropna] finds nothing to drop,
    since the loader already dropped the rows without coordinates. *)
Theorem X14_injured_map_of_loaded (to_datetime : cell -> cell -> cell)
  (raw data : DataFrame) (injured_people : Z) (m : DataFrame) :
  NoDup (map lower (columns raw)) ->
  load_data to_datetime raw = inr data ->
  injured_map data injured_people = inr m ->
  rows m
  = map (fun r => (label r, [value "latitude" data r;
                             value "longitude" data r]))
        (filter (fun r => cell_ge injured_people
                            (value "injured_persons" data r))
                (rows data)).
Proof.
  intros Hnd Hload H.
  destruct (loaded_coordinates _ _ _ Hnd Hload) as (_ & _ & _ & Hcoord).
  pose proof H as H0. unfold injured_map, query_ge in H0.
  destruct (find_col "injured_persons" (columns data)) as [p |] eqn:Hp;
    [| discriminate].
  rewrite (numeric_column_at _ _ _ Hp) in H0.
  destruct (numeric_column "injured_persons" data) eqn:Hnum;
    [| discriminate].
  cbn [bind ret] in H0. unfold getitems, col_loc in H0.
  cbn [mapM select_rows columns] in H0.
  destruct (find_col "latitude" (columns data)) as [plat |] eqn:Hplat;
    [| discriminate].
  destruct (find_col "longitude" (columns data)) as [plon |] eqn:Hplon;
    [| discriminate].
  clear H0.
  rewrite (injured_map_eq data injured_people p plat plon Hp Hnum Hplat Hplon)
    in H.
  injection H as <-. cbn [rows].
  rewrite filter_all.
  - unfold value. rewrite Hp, Hplat, Hplon. reflexivity.
  - intros r Hr. apply filter_In in Hr as [Hr _].
    rewrite Forall_forall in Hcoord. specialize (Hcoord r Hr).
    unfold has_coordinates, value in Hcoord. rewrite Hplat, Hplon in Hcoord.
    rewrite andb_true_r. exact Hcoord.
Qed.

Lemma X14_injured_map_of_loaded_witness :
  rows (mkDF ["latitude"; "longitude"]
             [(1%nat, [Num (4072 # 100); Num (-7399 # 100)])])
  = map (fun r => (label r, [value "latitude" loaded_sample r;
                             value "longitude" loaded_sample r]))
        (filter (fun r => cell_ge 2 (value "injured_persons" loaded_sample r))
                (rows loaded_sample)).
Proof.
  exact (X14_injured_map_of_loaded sample_to_datetime raw_sample
           loaded_sample 2 _
           (proj2 (proj2 (proj2 (proj2 raw_sample_header))))
           eq_refl eq_refl).
Defined.

(** X15: On the loaded table, once the hour filter has returned the rows
    of an hour, the selection of the three columns for the hexagon layer
    does return a frame: it has these three columns, the rows of the hour
    under their labels, and in every row a timestamp of that hour and both
    coordinates, so that every row gives the layer a position. *)
Theorem X15_layer_points (to_datetime : cell -> cell -> cell)
  (raw data : DataFrame) (hour : Z) (b : DataFrame) :
  NoDup (map lower (columns raw)) ->
  load_data to_datetime raw = inr data ->
  data_by_hour data hour = inr b ->
  exists layer,
    layer_data b = inr layer
    /\ columns layer = [DATE_TIME; "latitude"; "longitude"]
    /\ index layer = index b
    /\ Forall (fun r =>
                 (exists ns, value DATE_TIME layer r = Stamp ns
                             /\ hour_of ns = hour)
                 /\ notna (value "latitude" layer r) = true
                 /\ notna (value "longitude" layer r) = true)
              (rows layer).
Proof.
  intros Hnd Hload Hb.
  destruct (loaded_coordinates _ _ _ Hnd Hload)
    as (Hdt & Hlat & Hlon & Hcoord).
  destruct (data_by_hour_rows _ _ _ Hb) as [Hcols Hrows].
  destruct (find_col_In _ _ Hlat) as (plat & Hplat).
  destruct (find_col_In _ _ Hlon) as (plon & Hplon).
  unfold layer_data, getitems, col_loc. cbn [mapM].
  rewrite Hcols, Hdt, Hplat, Hplon. cbn [bind ret].
  eexists. split; [reflexivity |]. split; [reflexivity |].
  split.
  { unfold index. cbn [rows]. rewrite map_map. reflexivity. }
  cbn [rows]. apply Forall_forall. intros r' Hr'.
  apply in_map_iff in Hr' as (r & <- & Hr).
  rewrite Hrows in Hr. apply filter_In in Hr as [Hr Hhour].
  rewrite Forall_forall in Hcoord. specialize (Hcoord r Hr).
  unfold has_coordinates, value in Hcoord. rewrite Hplat, Hplon in Hcoord.
  apply andb_true_iff in Hcoord as [Hla Hlo].
  unfold value in Hhour. rewrite Hdt in Hhour.
  split; [| split].
  - destruct (cell_at 0 r) as [| x | s | ns] eqn:Hc; try discriminate.
    exists ns. split.
    + unfold value. cbn. exact Hc.
    + simpl in Hhour. apply Z.eqb_eq. exact Hhour.
  - exact Hla.
  - exact Hlo.
Qed.

Lemma X15_layer_points_witness :
  exists layer,
    layer_data (mkDF (columns loaded_sample)
                     [(0%nat, [at_time 10 15; Str "BROOKLYN";
                               Num (4071 # 100); Num (-7400 # 100); Num 0])])
    = inr layer
    /\ columns layer = [DATE_TIME; "latitude"; "longitude"]
    /\ index layer = [0%nat].
Proof.
  destruct (X15_layer_points sample_to_datetime raw_sample loaded_sample 10 _
              (proj2 (proj2 (proj2 (proj2 raw_sample_header))))
              eq_refl eq_refl)
    as (layer & Hlayer & Hcols & Hindex & _).
  exists layer. split; [exact Hlayer |]. split; [exact Hcols |].
  exact Hindex.
Defined.

(** ** The hour window of the headings (main.py, lines 36 and 63) *)

Lemma hour_of_next (ns : Z) :
  hour_of (ns + NS_PER_HOUR) = ((hour_of ns + 1) mod 24)%Z.
Proof.
  unfold hour_of.
  replace (ns + NS_PER_HOUR)%Z with (ns + 1 * NS_PER_HOUR)%Z by lia.
  rewrite Z.div_add by (unfold NS_PER_HOUR; lia).
  rewrite Z.add_mod_idemp_l by lia. reflexivity.
Qed.

(** X16: The two hours printed in the headings, [hour] and
    [(hour + 1) % 24], bracket the rows of [data_by_hour]: every row has a
    timestamp whose hour is the first, and the instant one hour later has
    the second as its hour, which wraps to 0 after 23 and is always an
    hour of the day. *)
Theorem X16_window_label (data : DataFrame) (hour : Z) (b : DataFrame) :
  data_by_hour data hour = inr b ->
  Forall (fun r => exists ns,
            value DATE_TIME b r = Stamp ns
            /\ hour_of ns = fst (window_label hour)
            /\ hour_of (ns + NS_PER_HOUR) = snd (window_label hour))
         (rows b)
  /\ (0 <= snd (window_label hour) <= 23)%Z
  /\ (hour = 23%Z -> snd (window_label hour) = 0%Z).
Proof.
  intros H. destruct (data_by_hour_rows _ _ _ H) as [Hcols Hrows].
  split; [| split].
  - apply Forall_forall. intros r Hr. rewrite Hrows in Hr.
    apply filter_In in Hr as [_ Hr].
    unfold value in *. rewrite Hcols.
    destruct (find_col DATE_TIME (columns data)) as [p |];
      [| discriminate].
    destruct (cell_at p r) as [| x | s | ns]; try discriminate.
    simpl in Hr. apply Z.eqb_eq in Hr.
    exists ns. split; [reflexivity |]. split; [exact Hr |].
    rewrite hour_of_next, Hr. reflexivity.
  - unfold window_label. simpl.
    pose proof (Z.mod_pos_bound (hour + 1) 24). lia.
  - intros ->. reflexivity.
Qed.

Lemma X16_window_label_witness :
  Forall (fun r => exists ns,
            value DATE_TIME
              (mkDF (columns loaded_sample)
                    [(0%nat, [at_time 10 15; Str "BROOKLYN";
                              Num (4071 # 100); Num (-7400 # 100); Num 0])])
              r = Stamp ns
            /\ hour_of ns = 10%Z
            /\ hour_of (ns + NS_PER_HOUR) = 11%Z)
         [(0%nat, [at_time 10 15; Str "BROOKLYN";
                   Num (4071 # 100); Num (-7400 # 100); Num 0])].
Proof.
  exact (proj1 (X16_window_label loaded_sample 10 _ eq_refl)).
Defined.
